(** * Wisconsin Shell (wsh): a shallow embedding of [wsh.c]

    The development follows the layout of the C file: C-string helpers,
    the history ring, variable substitution and tokenisation, the
    redirection resolver, the process launcher, the built-ins and the
    command execution engine, and finally the body of the read-eval loop
    of [main].  Theorems come after the definitions.

    Conventions of the embedding.
    - A C string is a [string] (no embedded NUL); a pointer into a string,
      such as [args[i] + 2], is the corresponding suffix.
    - An [int] is a [Z]; the ring arithmetic never leaves the [int] range
      under the well-formedness predicate [wf_history].
    - A NULL-terminated [char **] vector is the list of its elements up to
      the terminator; storing NULL at index [i] truncates the list at [i].
    - Heap allocation is assumed to succeed (the [malloc]/[strdup] failure
      branches are not modelled).
    - The process environment is a finite map from the names of its
      entries to their values; [getenv] and [setenv] act on it as the C
      library acts on [environ].
    - What the operating system answers (fork, open, access, execv, chdir,
      waitpid) is read from an explicit oracle record. *)

From Stdlib Require Import ZArith String Ascii List Lia DecimalString DecimalPos.
From stdpp Require Import gmap strings list.

Local Open Scope string_scope.
Local Open Scope Z_scope.

(** ** C-string helpers *)

(** [s + n]: the suffix of [s] after [n] characters (only used with
    [n <= strlen s]). *)
Fixpoint str_drop (n : nat) (s : string) : string :=
  match n, s with
  | O, _ => s
  | S _, EmptyString => EmptyString
  | S n', String _ s' => str_drop n' s'
  end.

(** The first [n] characters of [s] (all of [s] when it is shorter). *)
Fixpoint str_take (n : nat) (s : string) : string :=
  match n, s with
  | O, _ => EmptyString
  | S _, EmptyString => EmptyString
  | S n', String c s' => String c (str_take n' s')
  end.

(** [strcmp(s, t) == 0]. *)
Definition strcmp_eq (s t : string) : bool := String.eqb s t.

(** [strncmp(s, t, n) == 0]: the strings agree on their first [n]
    characters, a string end counting as a character that differs from
    every other one. *)
Definition strncmp_eq (s t : string) (n : nat) : bool :=
  String.eqb (str_take n s) (str_take n t).

(** ** Redirection resolver *)

(** The four output slots of [parse_redirection]. *)
Record Redirection := mkRedirection {
  input : option string;
  output : option string;
  append : bool;
  redirect_stderr : bool
}.

(** The slots as [parse_redirection] initialises them. *)
Definition no_redirection : Redirection :=
  {| input := None; output := None; append := false; redirect_stderr := false |}.

(** What [parse_redirection] leaves behind: its return value, the argument
    vector as truncated in place, and the slots. *)
Record ParsedRedirection := mkParsed {
  pr_status : Z;
  pr_args : list string;
  pr_redir : Redirection
}.

(** The [while (args[i] != NULL)] loop of [parse_redirection], from the
    current index on.  The result is the part of the vector that stays in
    front of the stored NULL, and the slots.  The tests are in the order of
    the source. *)
Fixpoint parse_redirection_loop (args : list string) : list string * Redirection :=
  match args with
  | [] => ([], no_redirection)
  | a :: rest =>
      if strncmp_eq a ">>" 2 then
        ([], {| input := None; output := Some (str_drop 2 a);
                append := true; redirect_stderr := false |})
      else if strncmp_eq a ">" 1 then
        ([], {| input := None; output := Some (str_drop 1 a);
                append := false; redirect_stderr := false |})
      else if strncmp_eq a "<" 1 then
        ([], {| input := Some (str_drop 1 a); output := None;
                append := false; redirect_stderr := false |})
      else if strncmp_eq a "&>" 2 then
        ([], {| input := None; output := Some (str_drop 2 a);
                append := false; redirect_stderr := true |})
      else if strncmp_eq a "&>>" 3 then
        ([], {| input := None; output := Some (str_drop 3 a);
                append := true; redirect_stderr := true |})
      else
        let '(kept, r) := parse_redirection_loop rest in (a :: kept, r)
  end.

Definition parse_redirection (args : list string) : ParsedRedirection :=
  let '(kept, r) := parse_redirection_loop args in
  {| pr_status := 0; pr_args := kept; pr_redir := r |}.

(** ** Integers and [atoi] *)

(** A value of type [long] converted to [int]: reduction modulo [2^32]
    into the signed range. *)
Definition int_of_long (z : Z) : Z := (z + 2147483648) mod 4294967296 - 2147483648.

(** [strtol] saturates at the ends of the [long] range. *)
Definition clamp_long (z : Z) : Z :=
  Z.max (-9223372036854775808) (Z.min 9223372036854775807 z).

(** [isspace] in the C locale. *)
Definition is_space (c : ascii) : bool :=
  let n := nat_of_ascii c in
  orb (Nat.eqb n 32) (andb (Nat.leb 9 n) (Nat.leb n 13)).

Definition is_digit (c : ascii) : bool :=
  let n := nat_of_ascii c in andb (Nat.leb 48 n) (Nat.leb n 57).

Fixpoint skip_spaces (s : string) : string :=
  match s with
  | String c s' => if is_space c then skip_spaces s' else s
  | EmptyString => s
  end.

(** The value of the longest prefix of decimal digits, most significant
    digit first. *)
Fixpoint read_digits (s : string) (acc : Z) : Z :=
  match s with
  | String c s' =>
      if is_digit c then read_digits s' (10 * acc + (Z.of_nat (nat_of_ascii c) - 48))
      else acc
  | EmptyString => acc
  end.

(** [atoi(s)], which is [(int) strtol(s, NULL, 10)]: leading white space,
    an optional sign, then decimal digits; 0 when there is no digit. *)
Definition atoi (s : string) : Z :=
  let s1 := skip_spaces s in
  let v :=
    match s1 with
    | String "-" s2 => - read_digits s2 0
    | String "+" s2 => read_digits s2 0
    | _ => read_digits s1 0
    end in
  int_of_long (clamp_long v).

(** [printf("%d", n)]. *)
Definition string_of_int (n : Z) : string := NilZero.string_of_int (Z.to_int n).

(** The newline character. *)
Definition nl : string := String (ascii_of_nat 10) EmptyString.

(** ** History ring *)

(** [struct History]: the slots of [commands] are [None] for NULL. *)
Record History := mkHistory {
  commands : list (option string);
  capacity : Z;
  count : Z;
  start : Z
}.

Definition MAX_HISTORY : Z := 5.

Definition builtin_str : list string :=
  ["cd"; "exit"; "export"; "local"; "vars"; "history"; "ls"].

(** [a[i]] for an array of pointers; NULL for an index outside the modelled
    block (such a read does not happen on a well-formed ring). *)
Definition slot_get (a : list (option string)) (i : Z) : option string :=
  if i <? 0 then None else mjoin (a !! Z.to_nat i).

(** [a[i] = v] (inside the block). *)
Definition slot_set (a : list (option string)) (i : Z) (v : option string)
  : list (option string) :=
  if i <? 0 then a else <[Z.to_nat i := v]> a.

(** The C remainder [a % b]. *)
Definition c_rem (a b : Z) : Z := Z.rem a b.

(** The history as [initialize_shell] sets it up. *)
Definition initial_history : History :=
  {| commands := replicate (Z.to_nat MAX_HISTORY) None;
     capacity := MAX_HISTORY; count := 0; start := 0 |}.

(** [strcmp(p, command) == 0] for a stored pointer [p]. *)
Definition slot_is (p : option string) (command : string) : bool :=
  match p with
  | Some c => strcmp_eq c command
  | None => false
  end.

Definition add_history (command : string) (h : History) : History :=
  if capacity h =? 0 then h
  else if existsb (fun b => strcmp_eq command b) builtin_str then h
  else if (0 <? count h)
          && slot_is (slot_get (commands h)
                        (c_rem (start h + count h - 1) (capacity h))) command
  then h
  else if count h <? capacity h then
    {| commands := slot_set (commands h)
                     (c_rem (start h + count h) (capacity h)) (Some command);
       capacity := capacity h;
       count := count h + 1;
       start := start h |}
  else
    {| commands := slot_set (commands h) (start h) (Some command);
       capacity := capacity h;
       count := count h;
       start := c_rem (start h + 1) (capacity h) |}.

(** What [printf("%s", p)] writes for a pointer [p]. *)
Definition print_str (p : option string) : string :=
  match p with
  | Some s => s
  | None => "(null)"
  end.

(** The line [printf("%d) %s\n", n, p)] writes. *)
Definition history_line (n : Z) (p : option string) : string :=
  string_of_int n ++ ") " ++ print_str p ++ nl.

(** The slot read by iteration [i] of the loops of [show_history] and
    [set_history_capacity]. *)
Definition recent_slot (h : History) (i : Z) : option string :=
  slot_get (commands h) (c_rem (start h + count h - 1 - i) (capacity h)).

(** The lines [show_history] prints, in order. *)
Definition show_history (h : History) : list string :=
  (fun i => history_line (i + 1) (recent_slot h i)) <$> seqZ 0 (count h).

(** [set_history_capacity] for a positive argument: the new block is filled
    with NULL, then slot [i] receives a copy of the [i]-th most recent
    command, for [i < new_count]. *)
Definition resize_history (new_capacity : Z) (h : History) : History :=
  let new_commands := replicate (Z.to_nat new_capacity) None in
  let new_count := if count h <? new_capacity then count h else new_capacity in
  let new_commands :=
    fold_left (fun a i => slot_set a i (recent_slot h i))
              (seqZ 0 new_count) new_commands in
  {| commands := new_commands;
     capacity := new_capacity;
     count := new_count;
     start := 0 |}.

(** [set_history_capacity], with the diagnostic it may print. *)
Definition set_history_capacity (new_capacity : Z) (h : History)
  : History * list string :=
  if new_capacity <=? 0 then
    (h, ["wsh: history capacity must be positive" ++ nl])
  else (resize_history new_capacity h, []).

(** ** Shell state *)

(** [struct VarNode]; the linked list is the list of its nodes from
    [var_head] on. *)
Record VarNode := mkVarNode {
  name : string;
  value : string
}.

(** Exit status of a child process as [waitpid] reports it. *)
Inductive ChildStatus :=
| ExitedWith (code : Z)
| Signaled.

(** What the shell process does that can be observed from outside. *)
Inductive Event :=
| Stdout (text : string)
| Stderr (text : string)
| Perror (prefix : string)
| Chdir (path : string)
| Forked (status : ChildStatus).

(** The globals of [wsh.c] together with the process environment and the
    trace of what the process has done so far. *)
Record Shell := mkShell {
  env : gmap string string;
  var_head : list VarNode;
  history : History;
  trace : list Event
}.

Definition set_env (e : gmap string string) (st : Shell) : Shell :=
  {| env := e; var_head := var_head st; history := history st; trace := trace st |}.

Definition set_var_head (v : list VarNode) (st : Shell) : Shell :=
  {| env := env st; var_head := v; history := history st; trace := trace st |}.

Definition set_history (h : History) (st : Shell) : Shell :=
  {| env := env st; var_head := var_head st; history := h; trace := trace st |}.

(** The events are recorded in the order they happen. *)
Definition emit (evs : list Event) (st : Shell) : Shell :=
  {| env := env st; var_head := var_head st; history := history st;
     trace := (trace st ++ evs)%list |}.

Definition EXIT_SUCCESS : Z := 0.
Definition EXIT_FAILURE : Z := 1.
Definition DEFAULT_PATH : string := "/bin".

(** [strchr(s, c) != NULL]. *)
Fixpoint has_char (c : ascii) (s : string) : bool :=
  match s with
  | EmptyString => false
  | String d s' => if Ascii.eqb d c then true else has_char c s'
  end.

(** The part of [s] before its first [c] and the part after it, as
    [strchr] and the store of a NUL at the found position split it. *)
Fixpoint split_at_char (c : ascii) (s : string) : option (string * string) :=
  match s with
  | EmptyString => None
  | String d s' =>
      if Ascii.eqb d c then Some (EmptyString, s')
      else match split_at_char c s' with
           | Some (before, after) => Some (String d before, after)
           | None => None
           end
  end.

(** What is left of [s] after its prefix [p], when [s] starts with [p]. *)
Fixpoint strip_prefix (p s : string) : option string :=
  match p with
  | EmptyString => Some s
  | String c p' =>
      match s with
      | EmptyString => None
      | String d s' => if Ascii.eqb c d then strip_prefix p' s' else None
      end
  end.

(** [getenv(name)].  The environment is the map from the names of the
    entries [NAME=VALUE] of [environ] to their values; the names are not
    empty and hold no ['='].  The C library returns NULL for the empty
    name; otherwise it takes the entry that starts with [name] followed by
    ['='] and returns what comes after that ['='].  For a name without
    ['='] this is the value of the entry of that name.  A name [KEY=REST]
    meets the entry of [KEY] when its value starts with [REST=], and the
    result is the value after that prefix. *)
Definition getenv (name : string) (e : gmap string string) : option string :=
  if strcmp_eq name EmptyString then None
  else
    match split_at_char "=" name with
    | None => e !! name
    | Some (key, wanted) =>
        match e !! key with
        | Some v => strip_prefix (wanted ++ "=") v
        | None => None
        end
    end.

(** [setenv(name, value, 1)]: fails (and changes nothing) on an empty name
    or a name containing ['=']. *)
Definition setenv (name value : string) (e : gmap string string)
  : option (gmap string string) :=
  if strcmp_eq name EmptyString || has_char "=" name then None
  else Some (<[name := value]> e).

(** ** Variable substitution and tokenisation *)

(** The [while (current)] walk of [handle_variable_substitution]. *)
Fixpoint var_lookup (var_name : string) (l : list VarNode) : option string :=
  match l with
  | [] => None
  | n :: rest =>
      if strcmp_eq (name n) var_name then Some (value n)
      else var_lookup var_name rest
  end.

Definition handle_variable_substitution (token : string) (st : Shell) : string :=
  match token with
  | String "$" var_name =>
      match getenv var_name (env st) with
      | Some env_value => env_value
      | None =>
          match var_lookup var_name (var_head st) with
          | Some v => v
          | None => EmptyString
          end
      end
  | _ => token
  end.

(** [DELIMITERS]: space, tab, carriage return, newline, bell. *)
Definition DELIMITERS : string :=
  String " " (String (ascii_of_nat 9) (String (ascii_of_nat 13)
    (String (ascii_of_nat 10) (String (ascii_of_nat 7) EmptyString)))).

(** [s + strspn(s, delim)]. *)
Fixpoint skip_delims (delim : string) (s : string) : string :=
  match s with
  | EmptyString => EmptyString
  | String c s' => if has_char c delim then skip_delims delim s' else s
  end.

(** The token at the front of [s], which starts with a non-delimiter, and
    the position [strtok] saves: after the delimiter that ended the token,
    or the string end. *)
Fixpoint scan_token (delim : string) (s : string) : string * string :=
  match s with
  | EmptyString => (EmptyString, EmptyString)
  | String c s' =>
      if has_char c delim then (EmptyString, s')
      else let '(tok, rest) := scan_token delim s' in (String c tok, rest)
  end.

(** One call of [strtok] at the saved position [s]: NULL when only
    delimiters are left, else the token and the new saved position. *)
Definition strtok (delim : string) (s : string) : option (string * string) :=
  match skip_delims delim s with
  | EmptyString => None
  | s' => Some (scan_token delim s')
  end.

(** The [while (token != NULL)] loop of [parse_line]; each iteration
    consumes at least one character, so a fuel above the length of the line
    is never used up. *)
Fixpoint parse_line_loop (fuel : nat) (saved : string) (st : Shell) : list string :=
  match fuel with
  | O => []
  | S fuel' =>
      match strtok DELIMITERS saved with
      | None => []
      | Some (token, saved') =>
          handle_variable_substitution token st :: parse_line_loop fuel' saved' st
      end
  end.

Definition parse_line (line : string) (st : Shell) : list string :=
  parse_line_loop (S (String.length line)) line st.

(** ** Shell variables *)

(** The first walk of [wsh_local_cmd]: update in place if [var] is there. *)
Fixpoint var_update (var v : string) (l : list VarNode) : option (list VarNode) :=
  match l with
  | [] => None
  | n :: rest =>
      if strcmp_eq (name n) var then Some ({| name := name n; value := v |} :: rest)
      else match var_update var v rest with
           | Some rest' => Some (n :: rest')
           | None => None
           end
  end.

(** The second walk: link the new node after the tail. *)
Fixpoint var_append (new_var : VarNode) (l : list VarNode) : list VarNode :=
  match l with
  | [] => [new_var]
  | n :: rest => n :: var_append new_var rest
  end.

(** ** The operating system *)

(** The flag sets [open] is called with. *)
Inductive OpenMode :=
| ReadOnly
| WriteTruncate
| WriteAppend
| WriteOnly.

(** Where the standard error of a child ends up. *)
Inductive StderrTarget :=
| StderrInherited
| StderrToStdout
| StderrToNull.

(** The standard descriptors of a child at the time it calls [execv]:
    [None] is the descriptor inherited from the shell, otherwise the file
    it was rebound to (for standard output, with the append flag). *)
Record Fds := mkFds {
  fd_stdin : option string;
  fd_stdout : option (string * bool);
  fd_stderr : StderrTarget
}.

(** The answers of the system.  Each one may depend on what the shell has
    done so far.  A child is assumed to terminate in the end: [os_stops]
    is the number of stop reports [waitpid] returns before its last
    answer, and [os_wait_fails] tells whether that last answer is -1. *)
Record OS := mkOS {
  os_chdir : list Event -> string -> bool;
  os_fork : list Event -> bool;
  os_dup : list Event -> bool;
  os_dup2 : list Event -> Z -> bool;
  os_open : list Event -> string -> OpenMode -> bool;
  os_access : list Event -> string -> bool;
  os_execv : list Event -> string -> list string -> Fds -> gmap string string
             -> option ChildStatus;
  os_stops : list Event -> nat;
  os_wait_fails : list Event -> bool
}.

(** What a call into the engine comes back with: a return value and the
    state, the termination of the shell process by [exit], or a recursion
    deeper than the fuel. *)
Inductive Outcome :=
| Returned (status : Z) (st : Shell)
| Exited (code : Z) (st : Shell)
| OutOfFuel.

Definition inherited_fds : Fds :=
  {| fd_stdin := None; fd_stdout := None; fd_stderr := StderrInherited |}.

Definition dq : string := String (ascii_of_nat 34) EmptyString.

(** [args[1]] and [args[2]] of a NULL-terminated vector whose [args[0]] is
    not NULL. *)
Definition arg (i : nat) (args : list string) : option string := args !! i.

(** The command string [execute_command] rebuilds with [strcat]. *)
Fixpoint join_args (args : list string) : string :=
  match args with
  | [] => EmptyString
  | a :: rest =>
      match rest with
      | [] => a
      | _ :: _ => a ++ " " ++ join_args rest
      end
  end.

Section Engine.

Variable os : OS.

(** *** Child side *)

Definition apply_redirection (r : Redirection) (tr : list Event) : Z * Fds :=
  if negb (os_dup os tr) then (-1, inherited_fds)
  else
    let stdin_step :=
      match input r with
      | Some path =>
          if negb (os_open os tr path ReadOnly) then None
          else if negb (os_dup2 os tr 0) then None
          else Some (Some path)
      | None => Some None
      end in
    match stdin_step with
    | None => (-1, inherited_fds)
    | Some fin =>
        let stdout_step :=
          match output r with
          | Some path =>
              let flags := if append r then WriteAppend else WriteTruncate in
              if negb (os_open os tr path flags) then None
              else if negb (os_dup2 os tr 1) then None
              else Some (Some (path, append r))
          | None => Some None
          end in
        match stdout_step with
        | None => (-1, mkFds fin None StderrInherited)
        | Some fout =>
            if redirect_stderr r then
              match output r with
              | Some _ =>
                  if negb (os_dup2 os tr 2) then (-1, mkFds fin fout StderrInherited)
                  else (0, mkFds fin fout StderrToStdout)
              | None =>
                  if negb (os_open os tr "/dev/null" WriteOnly)
                  then (-1, mkFds fin fout StderrInherited)
                  else if negb (os_dup2 os tr 2)
                  then (-1, mkFds fin fout StderrInherited)
                  else (0, mkFds fin fout StderrToNull)
              end
            else (0, mkFds fin fout StderrInherited)
        end
    end.

(** The [while (dir != NULL)] loop over the directories of [PATH]; the
    candidate is built by [snprintf] into a buffer of 1024 bytes. *)
Fixpoint search_path (fuel : nat) (saved : string) (arg0 : string)
         (tr : list Event) : option string :=
  match fuel with
  | O => None
  | S fuel' =>
      match strtok ":" saved with
      | None => None
      | Some (dir, saved') =>
          let executable_path := str_take 1023 (dir ++ "/" ++ arg0) in
          if os_access os tr executable_path then Some executable_path
          else search_path fuel' saved' arg0 tr
      end
  end.

(** The child branch of [launch_process]: how the child ends.  With an
    empty vector [args[0]] is NULL and [strchr] faults. *)
Definition launch_child (args : list string) (r : Redirection)
           (e : gmap string string) (tr : list Event) : ChildStatus :=
  let '(status, fds) := apply_redirection r tr in
  if status =? -1 then ExitedWith EXIT_FAILURE
  else
    match args with
    | [] => Signaled
    | arg0 :: _ =>
        if has_char "/" arg0 then
          match os_execv os tr arg0 args fds e with
          | Some ended => ended
          | None => ExitedWith EXIT_FAILURE
          end
        else
          match getenv "PATH" e with
          | None => ExitedWith EXIT_FAILURE
          | Some path_env =>
              match search_path (S (String.length path_env)) path_env arg0 tr with
              | None => ExitedWith EXIT_FAILURE
              | Some executable_path =>
                  match os_execv os tr executable_path args fds e with
                  | Some ended => ended
                  | None => ExitedWith EXIT_FAILURE
                  end
              end
          end
    end.

(** *** Parent side *)

(** The [do ... while] loop around [waitpid]: a stop report keeps the loop
    going, a termination report or an error ends it. *)
Fixpoint wait_loop (stops : nat) (fails : bool) : list Event :=
  match stops with
  | S stops' => wait_loop stops' fails
  | O => if fails then [Perror "wsh"] else []
  end.

Definition wait_child (ended : ChildStatus) (st : Shell) : Shell :=
  emit (Forked ended :: wait_loop (os_stops os (trace st)) (os_wait_fails os (trace st))) st.

Definition launch_process (args : list string) (st : Shell) : Z * Shell :=
  let parsed := parse_redirection args in
  if negb (os_fork os (trace st)) then (1, emit [Perror "wsh"] st)
  else
    (1, wait_child (launch_child (pr_args parsed) (pr_redir parsed) (env st) (trace st)) st).

(** *** Built-in commands *)

Definition wsh_cd (args : list string) (st : Shell) : Outcome :=
  match arg 1 args with
  | None =>
      Returned 1 (emit [Stderr ("wsh: expected argument to " ++ dq ++ "cd" ++ dq ++ nl)] st)
  | Some dir =>
      if os_chdir os (trace st) dir then Returned 1 (emit [Chdir dir] st)
      else Returned 1 (emit [Perror "wsh"] st)
  end.

(** The memory [cleanup_shell] frees is gone from the state. *)
Definition cleanup_shell (st : Shell) : Shell :=
  {| env := env st;
     var_head := [];
     history := {| commands := []; capacity := capacity (history st);
                   count := count (history st); start := start (history st) |};
     trace := trace st |}.

Definition wsh_exit_cmd (args : list string) (st : Shell) : Outcome :=
  match arg 1 args with
  | Some _ => Returned 1 (emit [Stderr ("wsh: exit takes no arguments" ++ nl)] st)
  | None => Exited EXIT_SUCCESS (cleanup_shell st)
  end.

Definition wsh_export (args : list string) (st : Shell) : Outcome :=
  match arg 1 args with
  | None => Returned 1 (emit [Stderr ("wsh: export requires an argument" ++ nl)] st)
  | Some a =>
      match split_at_char "=" a with
      | None =>
          Returned 1 (emit [Stderr ("wsh: export requires VAR=VALUE format" ++ nl)] st)
      | Some (var, val) =>
          match setenv var val (env st) with
          | Some e => Returned 1 (set_env e st)
          | None => Returned 1 (emit [Perror "wsh"] st)
          end
      end
  end.

Definition wsh_local_cmd (args : list string) (st : Shell) : Outcome :=
  match arg 1 args with
  | None => Returned 1 (emit [Stderr ("wsh: local requires an argument" ++ nl)] st)
  | Some a =>
      match split_at_char "=" a with
      | None =>
          Returned 1 (emit [Stderr ("wsh: local requires VAR=VALUE format" ++ nl)] st)
      | Some (var, val) =>
          let processed_value := handle_variable_substitution val st in
          match var_update var processed_value (var_head st) with
          | Some updated => Returned 1 (set_var_head updated st)
          | None =>
              let new_var := {| name := var; value := processed_value |} in
              Returned 1 (set_var_head (var_append new_var (var_head st)) st)
          end
      end
  end.

(** The lines [wsh_vars] prints. *)
Definition vars_lines (l : list VarNode) : list string :=
  map (fun n => name n ++ "=" ++ value n ++ nl) l.

Definition wsh_vars (args : list string) (st : Shell) : Outcome :=
  Returned 1 (emit (map Stdout (vars_lines (var_head st))) st).

Definition wsh_ls (args : list string) (st : Shell) : Outcome :=
  if negb (os_fork os (trace st)) then Returned 1 (emit [Perror "wsh"] st)
  else
    let ended :=
      match os_execv os (trace st) "/bin/ls" ["ls"; "-1"; "--color=never"]
                     inherited_fds (<["LANG" := "C"]> (env st)) with
      | Some ended => ended
      | None => ExitedWith EXIT_FAILURE
      end in
    Returned 1 (wait_child ended st).

(** *** History replay and the execution engine *)

(** [execute_history_command]; [exec] stands for the call of
    [execute_command], whose return value is dropped. *)
Definition execute_history_command
           (exec : list string -> Shell -> Outcome) (number : Z) (st : Shell)
  : Outcome :=
  let h := history st in
  if (number <=? 0) || (count h <? number) then Returned 1 st
  else
    match slot_get (commands h) (c_rem (start h + count h - number) (capacity h)) with
    | None => Returned 1 st
    | Some command =>
        match parse_line command st with
        | [] => Returned 1 st
        | (_ :: _) as args =>
            match exec args st with
            | Returned _ st' => Returned 1 st'
            | Exited code st' => Exited code st'
            | OutOfFuel => OutOfFuel
            end
        end
    end.

Definition wsh_history_cmd
           (exec : list string -> Shell -> Outcome) (args : list string) (st : Shell)
  : Outcome :=
  match arg 1 args with
  | None => Returned 1 (emit (map Stdout (show_history (history st))) st)
  | Some a1 =>
      if strcmp_eq a1 "set" then
        match arg 2 args with
        | None => Returned 1 (emit [Stderr ("wsh: history set requires a number" ++ nl)] st)
        | Some a2 =>
            let new_capacity := atoi a2 in
            if new_capacity <=? 0 then
              Returned 1 (emit [Stderr ("wsh: history set requires a positive integer" ++ nl)] st)
            else
              let '(h, diag) := set_history_capacity new_capacity (history st) in
              Returned 1 (emit (map Stderr diag) (set_history h st))
        end
      else
        let num := atoi a1 in
        if 0 <? num then execute_history_command exec num st
        else Returned 1 st
  end.

(** [builtin_func], in the order of [builtin_str]. *)
Definition builtin_func (exec : list string -> Shell -> Outcome)
  : list (list string -> Shell -> Outcome) :=
  [wsh_cd; wsh_exit_cmd; wsh_export; wsh_local_cmd; wsh_vars;
   wsh_history_cmd exec; wsh_ls].

(** The dispatch loop: the handler at the first index whose name is
    [arg0]. *)
Fixpoint find_builtin (arg0 : string) (names : list string)
         (funcs : list (list string -> Shell -> Outcome))
  : option (list string -> Shell -> Outcome) :=
  match names, funcs with
  | n :: names', f :: funcs' =>
      if strcmp_eq arg0 n then Some f else find_builtin arg0 names' funcs'
  | _, _ => None
  end.

(** [execute_command].  The fuel bounds the depth of the recursion through
    [execute_history_command]. *)
Fixpoint execute_command (fuel : nat) (args : list string) (st : Shell) : Outcome :=
  match fuel with
  | O => OutOfFuel
  | S fuel' =>
      match args with
      | [] => Returned 1 st
      | arg0 :: _ =>
          let replay :=
            match arg 1 args with
            | Some a1 => strcmp_eq arg0 "history" && (0 <? atoi a1)
            | None => false
            end in
          if replay then
            execute_history_command (execute_command fuel')
                                    (atoi (default EmptyString (arg 1 args))) st
          else
            match find_builtin arg0 builtin_str (builtin_func (execute_command fuel')) with
            | Some f => f args st
            | None =>
                let command_str := join_args args in
                let st1 := set_history (add_history command_str (history st)) st in
                let '(status, st2) := launch_process args st1 in
                Returned status st2
            end
      end
  end.

(** *** The read-eval loop *)

(** The loop of [main] that moves [trimmed] past leading spaces and tabs. *)
Fixpoint skip_blanks (s : string) : string :=
  match s with
  | String c s' =>
      if Ascii.eqb c " " || Ascii.eqb c (ascii_of_nat 9) then skip_blanks s' else s
  | EmptyString => s
  end.

(** The copy handed to [add_history]: the last character is dropped when
    it is a newline. *)
Fixpoint strip_newline (s : string) : string :=
  match s with
  | EmptyString => EmptyString
  | String c EmptyString => if Ascii.eqb c (ascii_of_nat 10) then EmptyString else s
  | String c s' => String c (strip_newline s')
  end.

(** One iteration of the loop of [main] on a line read by [getline]. *)
Definition main_step (fuel : nat) (line : string) (st : Shell) : Outcome :=
  let trimmed := skip_blanks line in
  match trimmed with
  | EmptyString => Returned 1 st
  | String c _ =>
      if Ascii.eqb c "#" || Ascii.eqb c (ascii_of_nat 10) then Returned 1 st
      else
        let line_copy := strip_newline trimmed in
        let st1 := set_history (add_history line_copy (history st)) st in
        execute_command fuel (parse_line trimmed st1) st1
  end.

(** The loop of [main] over the lines of a batch input, up to end of input
    (in batch mode no prompt is written). *)
Fixpoint main_loop (fuel : nat) (lines : list string) (st : Shell) : Outcome :=
  match lines with
  | [] => Exited EXIT_SUCCESS (cleanup_shell st)
  | line :: rest =>
      match main_step fuel line st with
      | Returned status st' =>
          if status =? 0 then Exited EXIT_SUCCESS (cleanup_shell st')
          else main_loop fuel rest st'
      | Exited code st' => Exited code st'
      | OutOfFuel => OutOfFuel
      end
  end.

End Engine.

(** [initialize_shell] on the inherited environment [e]. *)
Definition initialize_shell (e : gmap string string) : Shell :=
  {| env := default e (setenv "PATH" DEFAULT_PATH e);
     var_head := [];
     history := initial_history;
     trace := [] |}.

(** ** Specification-level views *)

(** The stored entries in logical order, newest first: entry [k] of the
    numbering of [show_history] is at position [k - 1]. *)
Definition recent (h : History) : list (option string) :=
  recent_slot h <$> seqZ 0 (count h).

(** A well-formed ring: a positive capacity for which the index
    arithmetic stays inside [int], a block of that many slots, and a
    command in every slot of the logical range. *)
Definition wf_history (h : History) : Prop :=
  0 < capacity h <= 1073741824 /\
  Z.of_nat (length (commands h)) = capacity h /\
  0 <= count h <= capacity h /\
  0 <= start h < capacity h /\
  (forall i, 0 <= i < count h -> is_Some (recent_slot h i)).

(** What recording [command] does to the newest-first list of a ring of
    capacity [cap]: nothing for the bare name of a built-in or a repetition
    of the newest entry; otherwise the command comes first and the list is
    cut to [cap] entries, which drops the oldest one of a full ring. *)
Definition record_entry (cap : Z) (command : string) (l : list (option string))
  : list (option string) :=
  if existsb (fun b => strcmp_eq command b) builtin_str then l
  else if slot_is (mjoin (head l)) command then l
  else take (Z.to_nat cap) (Some command :: l).

(** A token that [parse_redirection] takes for a redirection: it starts
    with ['>'], with ['<'] or with ["&>"]. *)
Definition is_redirection_token (a : string) : bool :=
  strncmp_eq a ">" 1 || strncmp_eq a "<" 1 || strncmp_eq a "&>" 2.

(** The slots read off a single redirection token. *)
Definition token_redirection (a : string) : Redirection :=
  pr_redir (parse_redirection [a]).

(** The successive results of [strtok] on a line, without substitution. *)
Fixpoint strtok_all (fuel : nat) (delim saved : string) : list string :=
  match fuel with
  | O => []
  | S fuel' =>
      match strtok delim saved with
      | None => []
      | Some (token, saved') => token :: strtok_all fuel' delim saved'
      end
  end.

(** The tokens of a line. *)
Definition tokenize (line : string) : list string :=
  strtok_all (S (String.length line)) DELIMITERS line.

(** The pieces of [s] between delimiters, empty pieces included. *)
Fixpoint split_pieces (delim : string) (s : string) : list string :=
  match s with
  | EmptyString => [EmptyString]
  | String c s' =>
      if has_char c delim then EmptyString :: split_pieces delim s'
      else match split_pieces delim s' with
           | piece :: pieces => String c piece :: pieces
           | [] => [String c EmptyString]
           end
  end.

Definition nonempty (s : string) : bool :=
  match s with
  | EmptyString => false
  | String _ _ => true
  end.

(** The maximal runs of non-delimiter characters of [s]. *)
Definition words_of (delim : string) (s : string) : list string :=
  filter (fun piece => nonempty piece = true) (split_pieces delim s).

(** The value [$var_name] stands for: the environment first, then the
    shell variables, else the empty string. *)
Definition resolve (var_name : string) (st : Shell) : string :=
  match getenv var_name (env st) with
  | Some v => v
  | None => default EmptyString (var_lookup var_name (var_head st))
  end.

(** The names [wsh_vars] lists, in the order it lists them. *)
Definition var_names (l : list VarNode) : list string := name <$> l.

(** An [Outcome] with the return value replaced by 1, as
    [execute_history_command] hands it on. *)
Definition drop_status (o : Outcome) : Outcome :=
  match o with
  | Returned _ st => Returned 1 st
  | Exited code st => Exited code st
  | OutOfFuel => OutOfFuel
  end.

(** The vectors [execute_command] hands to history replay. *)
Definition is_replay (args : list string) : bool :=
  match args with
  | arg0 :: a1 :: _ => strcmp_eq arg0 "history" && (0 <? atoi a1)
  | _ => false
  end.

(** The vector in which the replays that start from [args] end, when they
    end within [depth] of them: a replay in range goes on with the tokens
    of the entry that the listing shows under its number, substituted in
    [st]; a replay above the count, or of an entry without a token, ends
    in the empty vector. *)
Fixpoint replay_target (depth : nat) (args : list string) (st : Shell)
  : option (list string) :=
  if is_replay args then
    match depth with
    | O => None
    | S depth' =>
        let number := atoi (default EmptyString (arg 1 args)) in
        if count (history st) <? number then Some []
        else
          match recent (history st) !! Z.to_nat (number - 1) with
          | Some (Some command) => replay_target depth' (parse_line command st) st
          | _ => Some []
          end
    end
  else Some args.

(** A system in which every call succeeds, [/bin/echo] is the only
    executable found on the search path and every program exits with
    status 0. *)
Definition sample_os : OS :=
  {| os_chdir := fun _ _ => true;
     os_fork := fun _ => true;
     os_dup := fun _ => true;
     os_dup2 := fun _ _ => true;
     os_open := fun _ _ _ => true;
     os_access := fun _ p => String.eqb p "/bin/echo";
     os_execv := fun _ _ _ _ _ => Some (ExitedWith 0);
     os_stops := fun _ => O;
     os_wait_fails := fun _ => false |}.

(** No entry equals its neighbour. *)
Fixpoint distinct_neighbours (l : list (option string)) : Prop :=
  match l with
  | x :: rest =>
      match rest with
      | y :: _ => x <> y /\ distinct_neighbours rest
      | [] => True
      end
  | [] => True
  end.

(** A ring that has recorded the lines [a], [b] and [c], in this order. *)
Definition three_lines : History :=
  add_history "c" (add_history "b" (add_history "a" initial_history)).

(** [arg0] is the name of a built-in. *)
Definition is_builtin (arg0 : string) : bool :=
  existsb (fun b => strcmp_eq arg0 b) builtin_str.

(** The test by which [main] skips a line: nothing, a comment or a bare
    newline after the leading blanks. *)
Definition is_comment_or_blank (trimmed : string) : bool :=
  match trimmed with
  | EmptyString => true
  | String c _ => Ascii.eqb c "#" || Ascii.eqb c (ascii_of_nat 10)
  end.

(** A shell right after start-up whose history has recorded [a], [b], [c]. *)
Definition sample_shell : Shell :=
  set_history three_lines (initialize_shell ∅).

(** The shell after the lines [$C], [local C=exit] and [history 4] have
    been read and the last one has been recorded, on [sample_os]. *)
Definition replay_exit_shell : Shell :=
  {| env := env (initialize_shell ∅);
     var_head := [{| name := "C"; value := "exit" |}];
     history := {| commands := [Some "$C"; Some EmptyString; Some "local C=exit";
                                Some "history 4"; None];
                   capacity := 5; count := 4; start := 0 |};
     trace := [Forked (ExitedWith 1)] |}.

(** A shell right after start-up whose history has recorded [echo hi] and
    then [history 2]: entry 1 replays entry 2. *)
Definition nested_replay_shell : Shell :=
  set_history (add_history "history 2" (add_history "echo hi" initial_history))
              (initialize_shell ∅).

(** The candidates the search over [PATH] builds for [arg0], in order: one
    for every non-empty component between colons. *)
Definition path_candidates (path_env arg0 : string) : list string :=
  (fun dir => str_take 1023 (dir ++ "/" ++ arg0)) <$> words_of ":" path_env.

(** The system of [sample_os] in which the file [missing] cannot be
    opened. *)
Definition os_without_file (missing : string) : OS :=
  {| os_chdir := os_chdir sample_os;
     os_fork := os_fork sample_os;
     os_dup := os_dup sample_os;
     os_dup2 := os_dup2 sample_os;
     os_open := fun _ path _ => negb (String.eqb path missing);
     os_access := os_access sample_os;
     os_execv := os_execv sample_os;
     os_stops := os_stops sample_os;
     os_wait_fails := os_wait_fails sample_os |}.

(** A string a call of [strtok] can return for the delimiters [delim]: not
    empty and without a delimiter in it. *)
Definition is_token (delim : string) (t : string) : Prop :=
  t <> EmptyString /\ forall c, has_char c t = true -> has_char c delim = false.

(** Every character of [s] is a space or a tab. *)
Fixpoint all_blank (s : string) : bool :=
  match s with
  | EmptyString => true
  | String c s' =>
      (Ascii.eqb c " " || Ascii.eqb c (ascii_of_nat 9)) && all_blank s'
  end.

(** * Theorems *)

(** ** Redirection resolver *)

Lemma strncmp_append_is_output a :
  strncmp_eq a ">>" 2 = true -> strncmp_eq a ">" 1 = true.
Proof.
  unfold strncmp_eq. rewrite !String.eqb_eq.
  destruct a as [|c1 [|c2 a]]; simpl; try discriminate.
  intros H. injection H as -> _. reflexivity.
Qed.

(** The test for ["&>>"] comes after the test for ["&>"], which every token
    passing it passes as well: the last branch of [parse_redirection] is
    never taken. *)
Lemma strncmp_amp_append_is_amp a :
  strncmp_eq a "&>>" 3 = true -> strncmp_eq a "&>" 2 = true.
Proof.
  unfold strncmp_eq. rewrite !String.eqb_eq.
  destruct a as [|c1 [|c2 [|c3 a]]]; simpl; try discriminate.
  intros H. injection H as -> -> _. reflexivity.
Qed.

Lemma parse_redirection_loop_skip a rest :
  is_redirection_token a = false ->
  parse_redirection_loop (a :: rest) =
  (a :: fst (parse_redirection_loop rest), snd (parse_redirection_loop rest)).
Proof.
  unfold is_redirection_token. intros H.
  apply orb_false_elim in H as [H Hamp]. apply orb_false_elim in H as [Hout Hin].
  simpl. rewrite Hout, Hin, Hamp.
  destruct (strncmp_eq a ">>" 2) eqn:E1.
  { apply strncmp_append_is_output in E1. congruence. }
  destruct (strncmp_eq a "&>>" 3) eqn:E2.
  { apply strncmp_amp_append_is_amp in E2. congruence. }
  destruct (parse_redirection_loop rest). reflexivity.
Qed.

Lemma parse_redirection_loop_hit a rest :
  is_redirection_token a = true ->
  parse_redirection_loop (a :: rest) = ([], token_redirection a).
Proof.
  unfold is_redirection_token, token_redirection, parse_redirection. intros H. simpl.
  destruct (strncmp_eq a ">>" 2); [reflexivity|].
  destruct (strncmp_eq a ">" 1); [reflexivity|].
  destruct (strncmp_eq a "<" 1); [reflexivity|].
  destruct (strncmp_eq a "&>" 2); [reflexivity|].
  discriminate.
Qed.

Lemma parse_redirection_loop_cut pre tok post :
  Forall (fun a => is_redirection_token a = false) pre ->
  is_redirection_token tok = true ->
  parse_redirection_loop (pre ++ tok :: post)%list = (pre, token_redirection tok).
Proof.
  intros Hpre Htok. induction Hpre as [|a pre Ha _ IH].
  - apply parse_redirection_loop_hit, Htok.
  - change ((a :: pre) ++ tok :: post)%list with (a :: (pre ++ tok :: post))%list.
    rewrite parse_redirection_loop_skip by exact Ha. rewrite IH. reflexivity.
Qed.

(** Without a redirection token the vector is left as it is. *)
Lemma parse_redirection_none args :
  Forall (fun a => is_redirection_token a = false) args ->
  parse_redirection args =
  {| pr_status := 0; pr_args := args; pr_redir := no_redirection |}.
Proof.
  intros H. unfold parse_redirection.
  assert (parse_redirection_loop args = (args, no_redirection)) as ->; [|reflexivity].
  induction H as [|a args Ha _ IH]; [reflexivity|].
  rewrite parse_redirection_loop_skip by exact Ha. rewrite IH. reflexivity.
Qed.

(** A first redirection token that begins with ["&>>"] is read as ["&>"]
    followed by a path that begins with ['>']. *)
Lemma parse_redirection_amp_append (pre : list string) (path : string) post :
  Forall (fun a => is_redirection_token a = false) pre ->
  parse_redirection (pre ++ ("&>>" ++ path)%string :: post)%list =
  {| pr_status := 0; pr_args := pre;
     pr_redir := {| input := None; output := Some (">" ++ path);
                    append := false; redirect_stderr := true |} |}.
Proof.
  intros H. unfold parse_redirection.
  rewrite (parse_redirection_loop_cut pre ("&>>" ++ path) post H); reflexivity.
Qed.

(** C1 (the code departs from the claim): on [cmd &>>log.txt] the
    resolver yields the output path [>log.txt] with the append flag clear
    and only the stderr flag set, where the claim has the path [log.txt]
    with both flags set; the child then truncates the file [>log.txt] and
    sends both streams there. *)
Theorem C1_amp_append_read_as_amp :
  parse_redirection ["cmd"; "&>>log.txt"] =
    {| pr_status := 0; pr_args := ["cmd"];
       pr_redir := {| input := None; output := Some ">log.txt";
                      append := false; redirect_stderr := true |} |} /\
  apply_redirection sample_os (pr_redir (parse_redirection ["cmd"; "&>>log.txt"])) [] =
    (0, {| fd_stdin := None; fd_stdout := Some (">log.txt", false);
           fd_stderr := StderrToStdout |}).
Proof. split; reflexivity. Qed.

Lemma strncmp_eq_one tok c :
  strncmp_eq tok (String c EmptyString) 1 = true -> tok = String c (str_drop 1 tok).
Proof.
  unfold strncmp_eq. rewrite String.eqb_eq.
  destruct tok as [|d tok]; simpl; [discriminate|].
  intros H. injection H as ->. reflexivity.
Qed.

Lemma strncmp_eq_two tok c1 c2 :
  strncmp_eq tok (String c1 (String c2 EmptyString)) 2 = true ->
  tok = String c1 (String c2 (str_drop 2 tok)).
Proof.
  unfold strncmp_eq. rewrite String.eqb_eq.
  destruct tok as [|d1 [|d2 tok]]; simpl; try discriminate.
  intros H. injection H as -> ->. reflexivity.
Qed.

(** A redirection token is one of the four operators followed by a path,
    and the slots read off it hold that path. *)
Lemma token_redirection_forms tok :
  is_redirection_token tok = true ->
  exists path,
    (tok = ">>" ++ path /\
     token_redirection tok =
       {| input := None; output := Some path;
          append := true; redirect_stderr := false |}) \/
    (tok = ">" ++ path /\ strncmp_eq path ">" 1 = false /\
     token_redirection tok =
       {| input := None; output := Some path;
          append := false; redirect_stderr := false |}) \/
    (tok = "<" ++ path /\
     token_redirection tok =
       {| input := Some path; output := None;
          append := false; redirect_stderr := false |}) \/
    (tok = "&>" ++ path /\
     token_redirection tok =
       {| input := None; output := Some path;
          append := false; redirect_stderr := true |}).
Proof.
  unfold is_redirection_token, token_redirection, parse_redirection. intros H.
  cbn [parse_redirection_loop pr_redir].
  destruct (strncmp_eq tok ">>" 2) eqn:E2.
  { exists (str_drop 2 tok). left. split; [|reflexivity].
    exact (strncmp_eq_two tok ">" ">" E2). }
  destruct (strncmp_eq tok ">" 1) eqn:E1.
  { exists (str_drop 1 tok). right; left.
    pose proof (strncmp_eq_one tok ">" E1) as Htok.
    split; [exact Htok|]. split; [|reflexivity].
    destruct (strncmp_eq (str_drop 1 tok) ">" 1) eqn:E; [|reflexivity].
    apply strncmp_eq_one in E. rewrite E in Htok. rewrite Htok in E2.
    discriminate. }
  destruct (strncmp_eq tok "<" 1) eqn:E3.
  { exists (str_drop 1 tok). right; right; left. split; [|reflexivity].
    exact (strncmp_eq_one tok "<" E3). }
  destruct (strncmp_eq tok "&>" 2) eqn:E4; [|discriminate].
  exists (str_drop 2 tok). right; right; right. split; [|reflexivity].
  exact (strncmp_eq_two tok "&" ">" E4).
Qed.

(** C2 (as amended): only the first redirection token in left-to-right
    order takes effect, and the argument vector is cut at that token: the
    executed vector is what stood before it, and whatever follows it is
    dropped.  The token is one of the operators [>>], [>], [<] and [&>]
    followed by a path, and the slots hold that path, the remainder of the
    same token after the operator, with the flags of the operator. *)
Theorem C2_vector_cut_at_first_operator pre tok post :
  Forall (fun a => is_redirection_token a = false) pre ->
  is_redirection_token tok = true ->
  parse_redirection (pre ++ tok :: post)%list =
    {| pr_status := 0; pr_args := pre; pr_redir := token_redirection tok |} /\
  exists path,
    (tok = ">>" ++ path /\
     parse_redirection (pre ++ tok :: post)%list =
       {| pr_status := 0; pr_args := pre;
          pr_redir := {| input := None; output := Some path;
                         append := true; redirect_stderr := false |} |}) \/
    (tok = ">" ++ path /\ strncmp_eq path ">" 1 = false /\
     parse_redirection (pre ++ tok :: post)%list =
       {| pr_status := 0; pr_args := pre;
          pr_redir := {| input := None; output := Some path;
                         append := false; redirect_stderr := false |} |}) \/
    (tok = "<" ++ path /\
     parse_redirection (pre ++ tok :: post)%list =
       {| pr_status := 0; pr_args := pre;
          pr_redir := {| input := Some path; output := None;
                         append := false; redirect_stderr := false |} |}) \/
    (tok = "&>" ++ path /\
     parse_redirection (pre ++ tok :: post)%list =
       {| pr_status := 0; pr_args := pre;
          pr_redir := {| input := None; output := Some path;
                         append := false; redirect_stderr := true |} |}).
Proof.
  intros Hpre Htok.
  assert (Hcut : parse_redirection (pre ++ tok :: post)%list =
            {| pr_status := 0; pr_args := pre; pr_redir := token_redirection tok |}).
  { unfold parse_redirection.
    rewrite (parse_redirection_loop_cut pre tok post Hpre Htok). reflexivity. }
  split; [exact Hcut|]. rewrite Hcut.
  destruct (token_redirection_forms tok Htok)
    as [path [[Ht ->] | [[Ht [Hp ->]] | [[Ht ->] | [Ht ->]]]]];
    exists path; [left | right; left | right; right; left | right; right; right];
    repeat split; assumption.
Qed.

Lemma C2_witness :
  Forall (fun a => is_redirection_token a = false) ["cmd"] /\
  is_redirection_token ">" = true /\
  parse_redirection (["cmd"] ++ ">" :: ["out.txt"; "extra"])%list =
    {| pr_status := 0; pr_args := ["cmd"]; pr_redir := token_redirection ">" |} /\
  exists path,
    (">" = ">>" ++ path /\
     parse_redirection (["cmd"] ++ ">" :: ["out.txt"; "extra"])%list =
       {| pr_status := 0; pr_args := ["cmd"];
          pr_redir := {| input := None; output := Some path;
                         append := true; redirect_stderr := false |} |}) \/
    (">" = ">" ++ path /\ strncmp_eq path ">" 1 = false /\
     parse_redirection (["cmd"] ++ ">" :: ["out.txt"; "extra"])%list =
       {| pr_status := 0; pr_args := ["cmd"];
          pr_redir := {| input := None; output := Some path;
                         append := false; redirect_stderr := false |} |}) \/
    (">" = "<" ++ path /\
     parse_redirection (["cmd"] ++ ">" :: ["out.txt"; "extra"])%list =
       {| pr_status := 0; pr_args := ["cmd"];
          pr_redir := {| input := Some path; output := None;
                         append := false; redirect_stderr := false |} |}) \/
    (">" = "&>" ++ path /\
     parse_redirection (["cmd"] ++ ">" :: ["out.txt"; "extra"])%list =
       {| pr_status := 0; pr_args := ["cmd"];
          pr_redir := {| input := None; output := Some path;
                         append := false; redirect_stderr := true |} |}).
Proof.
  assert (H1 : Forall (fun a => is_redirection_token a = false) ["cmd"])
    by (repeat constructor).
  assert (H2 : is_redirection_token ">" = true) by reflexivity.
  exact (conj H1 (conj H2
    (C2_vector_cut_at_first_operator ["cmd"] ">" ["out.txt"; "extra"] H1 H2))).
Defined.

(** On [cmd > out.txt extra] the executed vector is [cmd] alone, and the
    output path is empty. *)
Lemma C2_counterexample :
  pr_args (parse_redirection ["cmd"; ">"; "out.txt"; "extra"]) <> ["cmd"; "extra"] /\
  parse_redirection ["cmd"; ">"; "out.txt"; "extra"] =
  {| pr_status := 0; pr_args := ["cmd"];
     pr_redir := {| input := None; output := Some EmptyString;
                    append := false; redirect_stderr := false |} |}.
Proof. split; [discriminate | reflexivity]. Qed.

(** ** History ring *)

Lemma c_rem_small x n : 0 <= x < n -> c_rem x n = x.
Proof. intros H. unfold c_rem. apply Z.rem_small. lia. Qed.

Lemma c_rem_wrap x n : n <= x < 2 * n -> c_rem x n = x - n.
Proof.
  intros H. unfold c_rem. rewrite Z.rem_mod_nonneg by lia.
  symmetry. apply Z.mod_unique with 1; lia.
Qed.

(** Rewrites a remainder whose dividend is below twice the divisor. *)
Ltac split_rem :=
  match goal with
  | |- context [c_rem ?x ?n] =>
      first [ rewrite (c_rem_small x n) by lia
            | rewrite (c_rem_wrap x n) by lia
            | destruct (Z_lt_dec x n);
              [ rewrite (c_rem_small x n) by lia
              | rewrite (c_rem_wrap x n) by lia ] ]
  end.

Lemma slot_get_set_eq (a : list (option string)) i v :
  0 <= i < Z.of_nat (length a) -> slot_get (slot_set a i v) i = v.
Proof.
  intros H. unfold slot_get, slot_set.
  destruct (i <? 0) eqn:E; [lia|].
  rewrite list_lookup_insert_eq by lia. reflexivity.
Qed.

Lemma slot_get_set_ne (a : list (option string)) i j v :
  0 <= i -> 0 <= j -> i <> j -> slot_get (slot_set a i v) j = slot_get a j.
Proof.
  intros Hi Hj Hne. unfold slot_get, slot_set.
  destruct (i <? 0) eqn:E; [lia|].
  rewrite list_lookup_insert_ne by lia. reflexivity.
Qed.

Lemma length_slot_set (a : list (option string)) i v :
  length (slot_set a i v) = length a.
Proof. unfold slot_set. destruct (i <? 0); [reflexivity | apply length_insert]. Qed.

Lemma length_recent h : length (recent h) = Z.to_nat (count h).
Proof. unfold recent. rewrite length_fmap. apply length_seqZ. Qed.

Lemma recent_lookup_lt h (i : nat) :
  Z.of_nat i < count h -> recent h !! i = Some (recent_slot h (Z.of_nat i)).
Proof.
  intros H. unfold recent. rewrite list_lookup_fmap, lookup_seqZ_lt by lia.
  reflexivity.
Qed.

Lemma recent_lookup_ge h (i : nat) :
  count h <= Z.of_nat i -> recent h !! i = None.
Proof.
  intros H. unfold recent. rewrite list_lookup_fmap, lookup_seqZ_ge by lia.
  reflexivity.
Qed.

Lemma head_recent h :
  mjoin (head (recent h)) = if 0 <? count h then recent_slot h 0 else None.
Proof.
  rewrite head_lookup. destruct (0 <? count h) eqn:E.
  - rewrite recent_lookup_lt by lia. reflexivity.
  - rewrite recent_lookup_ge by lia. reflexivity.
Qed.

Lemma slot_get_set_same (a : list (option string)) i j v :
  j = i -> 0 <= i < Z.of_nat (length a) -> slot_get (slot_set a i v) j = v.
Proof. intros ->. apply slot_get_set_eq. Qed.

Lemma slot_get_set_other (a : list (option string)) i j k v :
  j = k -> 0 <= i -> 0 <= k -> i <> k ->
  slot_get (slot_set a i v) j = slot_get a k.
Proof. intros ->. apply slot_get_set_ne. Qed.

(** [add_history] on the newest-first view. *)
Lemma add_history_recent command h :
  wf_history h ->
  recent (add_history command h) = record_entry (capacity h) command (recent h).
Proof.
  intros (Hcap & Hlen & Hcount & Hstart & Hsome).
  unfold add_history, record_entry.
  destruct (capacity h =? 0) eqn:E0; [lia|].
  destruct (existsb _ builtin_str); [reflexivity|].
  rewrite head_recent. unfold recent_slot at 1. rewrite Z.sub_0_r.
  destruct (0 <? count h) eqn:Epos; simpl andb.
  - destruct (slot_is _ command); [reflexivity|].
    destruct (count h <? capacity h) eqn:Efull.
    + rewrite take_ge by (simpl; rewrite length_recent; lia).
      apply list_eq. intros [|i].
      * rewrite recent_lookup_lt by (simpl; lia). simpl. f_equal.
        unfold recent_slot. simpl.
        apply slot_get_set_same; [f_equal; lia | split_rem; lia].
      * simpl. destruct (Z_lt_dec (Z.of_nat i) (count h)).
        -- rewrite !recent_lookup_lt by (simpl; lia). f_equal.
           unfold recent_slot. simpl.
           apply slot_get_set_other; [f_equal; lia | | |]; repeat split_rem; lia.
        -- rewrite !recent_lookup_ge by (simpl; lia). reflexivity.
    + apply list_eq. intros i.
      destruct (Z_lt_dec (Z.of_nat i) (count h)).
      * rewrite lookup_take_lt by lia.
        rewrite recent_lookup_lt by (simpl; lia).
        unfold recent_slot at 1. simpl commands. simpl capacity. simpl count. simpl start.
        destruct i as [|i]; simpl lookup.
        -- f_equal. apply slot_get_set_same; [|lia].
           repeat split_rem; lia.
        -- rewrite recent_lookup_lt by lia. f_equal. unfold recent_slot.
           apply slot_get_set_other with (k := c_rem (start h + count h - 1 - Z.of_nat i) (capacity h));
             [| | |]; repeat split_rem; lia.
      * rewrite lookup_take_ge by lia.
        rewrite recent_lookup_ge by (simpl; lia). reflexivity.
  - assert (count h = 0) as Hz by lia.
    destruct (count h <? capacity h) eqn:Efull; [|lia].
    rewrite take_ge by (simpl; rewrite length_recent; lia).
    apply list_eq. intros [|i].
    + rewrite recent_lookup_lt by (simpl; lia). simpl. f_equal.
      unfold recent_slot. simpl.
      apply slot_get_set_same; [f_equal; lia | split_rem; lia].
    + simpl. rewrite !recent_lookup_ge by (simpl; lia). reflexivity.
Qed.

Lemma recent_all_some h :
  (forall i, 0 <= i < count h -> is_Some (recent_slot h i)) <->
  Forall is_Some (recent h).
Proof.
  unfold recent. rewrite Forall_fmap, Forall_seqZ. unfold compose.
  split; intros H i Hi; apply H; lia.
Qed.

Lemma record_entry_all_some cap command l :
  Forall is_Some l -> Forall is_Some (record_entry cap command l).
Proof.
  intros H. unfold record_entry.
  destruct (existsb _ builtin_str); [exact H|].
  destruct (slot_is _ command); [exact H|].
  apply Forall_take. constructor; [eexists; reflexivity | exact H].
Qed.

(** [add_history] keeps the ring well formed. *)
Lemma add_history_wf command h : wf_history h -> wf_history (add_history command h).
Proof.
  intros Hwf. pose proof (add_history_recent command h Hwf) as Hrec.
  destruct Hwf as (Hcap & Hlen & Hcount & Hstart & Hsome).
  assert (Hall : Forall is_Some (recent (add_history command h))).
  { rewrite Hrec. apply record_entry_all_some, recent_all_some, Hsome. }
  pose proof (proj2 (recent_all_some _) Hall) as Hall'. clear Hall.
  revert Hall'. clear Hrec.
  unfold add_history.
  destruct (capacity h =? 0); [intros _; repeat split; solve [lia | apply Hsome; lia] |].
  destruct (existsb _ builtin_str); [intros _; repeat split; solve [lia | apply Hsome; lia] |].
  destruct (_ && _); [intros _; repeat split; solve [lia | apply Hsome; lia] |].
  destruct (count h <? capacity h) eqn:Efull; intros Hall.
  - split; [exact Hcap|]. split; [simpl; rewrite length_slot_set; exact Hlen|].
    split; [simpl; lia|]. split; [exact Hstart | exact Hall].
  - split; [exact Hcap|]. split; [simpl; rewrite length_slot_set; exact Hlen|].
    split; [exact Hcount|]. split; [simpl; split_rem; lia | exact Hall].
Qed.

Lemma initial_history_wf : wf_history initial_history.
Proof.
  unfold wf_history, initial_history, MAX_HISTORY. simpl.
  repeat split; try lia.
Qed.

Lemma distinct_neighbours_take n l :
  distinct_neighbours l -> distinct_neighbours (take n l).
Proof.
  revert l. induction n as [|n IH]; intros l H; [exact I|].
  destruct l as [|x l]; [exact I|].
  destruct l as [|y l];
    [change (distinct_neighbours (x :: take n [])); rewrite take_nil; exact I|].
  destruct H as [Hxy H]. specialize (IH (y :: l) H).
  destruct n as [|n]; [exact I|].
  change (take (S (S n)) (x :: y :: l)) with (x :: take (S n) (y :: l)).
  change (take (S n) (y :: l)) with (y :: take n l) in IH |- *.
  split; [exact Hxy | exact IH].
Qed.

Lemma record_entry_distinct cap command l :
  distinct_neighbours l -> distinct_neighbours (record_entry cap command l).
Proof.
  intros H. unfold record_entry.
  destruct (existsb _ builtin_str); [exact H|].
  destruct (slot_is _ command) eqn:E; [exact H|].
  apply distinct_neighbours_take.
  destruct l as [|y l]; [exact I|]. split; [|exact H].
  intros <-. simpl in E. unfold strcmp_eq in E. rewrite String.eqb_refl in E.
  discriminate.
Qed.

(** Recording never puts a line next to an identical one. *)
Lemma add_history_no_repeats command h :
  wf_history h ->
  distinct_neighbours (recent h) ->
  distinct_neighbours (recent (add_history command h)).
Proof.
  intros Hwf H. rewrite add_history_recent by exact Hwf.
  apply record_entry_distinct, H.
Qed.

(** On a full ring a new entry takes the place of the oldest one. *)
Lemma add_history_full_evicts_oldest command h :
  wf_history h ->
  count h = capacity h ->
  existsb (fun b => strcmp_eq command b) builtin_str = false ->
  mjoin (head (recent h)) <> Some command ->
  recent (add_history command h) =
  Some command :: take (Z.to_nat (capacity h) - 1) (recent h).
Proof.
  intros Hwf Hfull Hb Hnew. rewrite add_history_recent by exact Hwf.
  unfold record_entry. rewrite Hb.
  destruct (slot_is _ command) eqn:E.
  - destruct (mjoin (head (recent h))) as [c|]; [|discriminate].
    simpl in E. apply String.eqb_eq in E. congruence.
  - destruct Hwf as (Hcap & _). 
    destruct (Z.to_nat (capacity h)) as [|n] eqn:En; [lia|].
    simpl. rewrite Nat.sub_0_r. reflexivity.
Qed.

(** The lines of [show_history] number the newest-first view from 1. *)
Lemma show_history_lookup h (i : nat) :
  show_history h !! i = history_line (Z.of_nat i + 1) <$> recent h !! i.
Proof.
  unfold show_history, recent. rewrite !list_lookup_fmap.
  destruct (Z_lt_dec (Z.of_nat i) (count h)).
  - rewrite lookup_seqZ_lt by lia. reflexivity.
  - rewrite lookup_seqZ_ge by lia. reflexivity.
Qed.

Lemma fill_length (f : Z -> option string) l a :
  length (fold_left (fun a i => slot_set a i (f i)) l a) = length a.
Proof.
  revert a. induction l as [|i l IH]; intros a; [reflexivity|].
  simpl. rewrite IH. apply length_slot_set.
Qed.

(** The copy loop of [set_history_capacity] fills the first [n] slots. *)
Lemma fill_lookup (f : Z -> option string) (n : nat) (a : list (option string)) (j : nat) :
  (n <= length a)%nat ->
  fold_left (fun a i => slot_set a i (f i)) (seqZ 0 (Z.of_nat n)) a !! j =
  if (j <? n)%nat then Some (f (Z.of_nat j)) else a !! j.
Proof.
  induction n as [|n IH]; intros Hn.
  - simpl. destruct (j <? 0)%nat eqn:E; [apply Nat.ltb_lt in E; lia | reflexivity].
  - rewrite seqZ_S, fold_left_app. simpl fold_left. rewrite Z.add_0_l.
    unfold slot_set at 1. destruct (Z.of_nat n <? 0) eqn:E; [lia|].
    rewrite Nat2Z.id. destruct (Nat.eq_dec j n) as [->|Hne].
    + rewrite list_lookup_insert_eq by (rewrite fill_length; lia).
      destruct (n <? S n)%nat eqn:E1; [reflexivity|]. apply Nat.ltb_ge in E1. lia.
    + rewrite list_lookup_insert_ne by congruence. rewrite IH by lia.
      destruct (j <? n)%nat eqn:E1, (j <? S n)%nat eqn:E2; try reflexivity;
        rewrite ?Nat.ltb_lt, ?Nat.ltb_ge in *; lia.
Qed.

(** [set_history_capacity] on the newest-first view: the entries kept are
    the [min new_capacity count] most recent ones, and their order is
    turned around, the oldest kept entry becoming the newest. *)
Lemma resize_history_recent new_capacity h :
  wf_history h ->
  0 < new_capacity ->
  recent (resize_history new_capacity h) =
  reverse (take (Z.to_nat (Z.min new_capacity (count h))) (recent h)).
Proof.
  intros (Hcap & Hlen & Hcount & Hstart & Hsome) Hpos.
  set (nc := Z.min new_capacity (count h)).
  assert (Hnc : (if count h <? new_capacity then count h else new_capacity) = nc).
  { unfold nc. destruct (count h <? new_capacity) eqn:E; lia. }
  assert (Hb : 0 <= nc <= count h /\ nc <= new_capacity) by (unfold nc; lia).
  clearbody nc.
  assert (exists n, nc = Z.of_nat n) as [n ->] by (exists (Z.to_nat nc); lia).
  apply list_eq. intros i.
  assert (Hlt : length (take n (recent h)) = n).
  { rewrite length_take, length_recent. lia. }
  rewrite Nat2Z.id.
  destruct (Nat.lt_ge_cases i n) as [Hi|Hi].
  - rewrite recent_lookup_lt by (simpl; rewrite Hnc; lia).
    rewrite reverse_lookup by lia. rewrite Hlt.
    rewrite lookup_take_lt by lia.
    rewrite recent_lookup_lt by lia. f_equal.
    unfold recent_slot at 1. simpl. rewrite Hnc.
    replace (0 + Z.of_nat n - 1 - Z.of_nat i) with (Z.of_nat (n - S i)) by lia.
    rewrite c_rem_small by lia.
    unfold slot_get.
    destruct (Z.of_nat (n - S i) <? 0) eqn:E; [apply Z.ltb_lt in E; lia|].
    rewrite Nat2Z.id.
    rewrite fill_lookup by (rewrite length_replicate; lia).
    destruct (n - S i <? n)%nat eqn:E1; [reflexivity|]. apply Nat.ltb_ge in E1. lia.
  - rewrite recent_lookup_ge by (simpl; rewrite Hnc; lia).
    symmetry. apply lookup_ge_None. rewrite length_reverse, Hlt. lia.
Qed.

(** A non-positive capacity is rejected and the ring stays as it is. *)
Lemma set_history_capacity_rejects new_capacity h :
  new_capacity <= 0 ->
  set_history_capacity new_capacity h =
  (h, ["wsh: history capacity must be positive" ++ nl]).
Proof.
  intros H. unfold set_history_capacity.
  destruct (new_capacity <=? 0) eqn:E; [reflexivity | lia].
Qed.

(** [set_history_capacity] keeps the ring well formed. *)
Lemma resize_history_wf new_capacity h :
  wf_history h ->
  0 < new_capacity <= 1073741824 ->
  wf_history (resize_history new_capacity h).
Proof.
  intros Hwf Hcap. pose proof (resize_history_recent new_capacity h Hwf (proj1 Hcap)) as Hrec.
  split; [exact Hcap|]. split.
  { unfold resize_history. simpl. rewrite fill_length, length_replicate. lia. }
  destruct Hwf as (_ & _ & Hcount & _ & Hsome).
  split; [unfold resize_history; simpl; destruct (count h <? new_capacity) eqn:E; lia|].
  split; [simpl; lia|].
  apply recent_all_some. rewrite Hrec.
  apply Forall_reverse, Forall_take, recent_all_some, Hsome.
Qed.

(** After a resize, entry [k] of the listing is what used to be entry
    [min new_capacity count - k + 1]. *)
Lemma resize_history_listing new_capacity h k :
  wf_history h ->
  0 < new_capacity ->
  1 <= k <= Z.min new_capacity (count h) ->
  show_history (resize_history new_capacity h) !! Z.to_nat (k - 1) =
  Some (history_line k (recent_slot h (Z.min new_capacity (count h) - k))).
Proof.
  intros Hwf Hpos Hk. pose proof Hwf as (_ & _ & Hcount & _).
  rewrite show_history_lookup, resize_history_recent by assumption.
  assert (Hlen : length (take (Z.to_nat (Z.min new_capacity (count h))) (recent h))
                 = Z.to_nat (Z.min new_capacity (count h))).
  { rewrite length_take, length_recent. lia. }
  rewrite reverse_lookup by lia. rewrite Hlen.
  rewrite lookup_take_lt by lia. rewrite recent_lookup_lt by lia.
  simpl. f_equal. f_equal; [lia | f_equal; lia].
Qed.

(** C3 (the code departs from the claim): a built-in invocation with an
    argument is recorded.  [add_history] compares the whole line with the
    names of the built-ins, so only a bare name is kept out: after the line
    [cd /tmp] the history shows it as entry 1, whatever the system answers. *)
Theorem C3_builtin_invocation_recorded :
  forall os : OS,
  exists st,
    main_step os 1 ("cd /tmp" ++ nl) (initialize_shell ∅) = Returned 1 st /\
    show_history (history st) = ["1) cd /tmp" ++ nl].
Proof.
  intros os.
  exists (emit (if os_chdir os [] "/tmp" then [Chdir "/tmp"] else [Perror "wsh"])
               (set_history (add_history "cd /tmp" initial_history)
                            (initialize_shell ∅))).
  split; [|reflexivity].
  destruct os as [chdir ? ? ? ? ? ? ? ?]. vm_compute.
  match goal with |- context [chdir [] ?p] => destruct (chdir [] p) end;
    reflexivity.
Qed.

(** C5 (the code departs from the claim): resizing turns the order of the
    kept entries around.  With [a], [b], [c] recorded in this order,
    [show_history] prints [c], [b], [a]; after [history set 2] it prints
    [b] as entry 1 and [c] as entry 2, where the claim has [c] then [b]. *)
Theorem C5_resize_turns_order_around :
  show_history three_lines = ["1) c" ++ nl; "2) b" ++ nl; "3) a" ++ nl] /\
  show_history (fst (set_history_capacity 2 three_lines)) =
  ["1) b" ++ nl; "2) c" ++ nl].
Proof. split; reflexivity. Qed.

(** ** Tokenisation and substitution *)

Lemma parse_line_loop_tokens fuel saved st :
  parse_line_loop fuel saved st =
  (fun token => handle_variable_substitution token st) <$> strtok_all fuel DELIMITERS saved.
Proof.
  revert saved. induction fuel as [|fuel IH]; intros saved; [reflexivity|].
  simpl. destruct (strtok DELIMITERS saved) as [[token saved']|]; [|reflexivity].
  rewrite IH. reflexivity.
Qed.

Lemma length_skip_delims delim s :
  (String.length (skip_delims delim s) <= String.length s)%nat.
Proof.
  induction s as [|c s IH]; simpl; [lia|].
  destruct (has_char c delim); simpl; lia.
Qed.

Lemma length_scan_token delim c s :
  (String.length (snd (scan_token delim (String c s))) <= String.length s)%nat.
Proof.
  revert c. induction s as [|d s IH]; intros c; simpl.
  - destruct (has_char c delim); simpl; lia.
  - destruct (has_char c delim); [simpl; lia|].
    specialize (IH d). simpl in IH.
    destruct (has_char d delim); simpl in *; [lia|].
    destruct (scan_token delim s). simpl in *. lia.
Qed.

Lemma words_of_skip_delims delim s :
  words_of delim (skip_delims delim s) = words_of delim s.
Proof.
  unfold words_of. induction s as [|c s IH]; [reflexivity|].
  simpl. destruct (has_char c delim) eqn:E; [|simpl; rewrite E; reflexivity].
  rewrite filter_cons_False by (simpl; discriminate). exact IH.
Qed.

Lemma scan_token_pieces delim s :
  split_pieces delim s =
    fst (scan_token delim s) :: split_pieces delim (snd (scan_token delim s)) \/
  (split_pieces delim s = [fst (scan_token delim s)] /\
   snd (scan_token delim s) = EmptyString).
Proof.
  induction s as [|c s IH]; simpl; [right; split; reflexivity|].
  destruct (has_char c delim); [left; reflexivity|].
  destruct (scan_token delim s) as [tok rest]. simpl in *.
  destruct IH as [-> | [-> ->]]; [left | right; split]; reflexivity.
Qed.

Lemma scan_token_words delim c s :
  has_char c delim = false ->
  words_of delim (String c s) =
  fst (scan_token delim (String c s)) ::
  words_of delim (snd (scan_token delim (String c s))).
Proof.
  intros Hc. unfold words_of.
  assert (Hne : nonempty (fst (scan_token delim (String c s))) = true).
  { simpl. rewrite Hc. destruct (scan_token delim s). reflexivity. }
  destruct (scan_token_pieces delim (String c s)) as [-> | [-> ->]];
    rewrite filter_cons_True by exact Hne; [reflexivity|].
  simpl. rewrite filter_cons_False by (simpl; discriminate). reflexivity.
Qed.

(** The [strtok] loop yields the maximal runs of non-delimiter characters,
    and a fuel above the length of the line is enough for it. *)
Lemma strtok_all_words fuel delim s :
  (String.length s < fuel)%nat -> strtok_all fuel delim s = words_of delim s.
Proof.
  revert s. induction fuel as [|fuel IH]; intros s Hlen; [lia|].
  simpl. unfold strtok. rewrite <- (words_of_skip_delims delim s).
  pose proof (length_skip_delims delim s) as Hskip.
  destruct (skip_delims delim s) as [|c s'] eqn:E; [reflexivity|].
  assert (Hc : has_char c delim = false).
  { clear -E. induction s as [|d s IH]; simpl in E; [discriminate|].
    destruct (has_char d delim) eqn:Hd; [exact (IH E)|].
    injection E as <- _. exact Hd. }
  rewrite (scan_token_words delim c s' Hc).
  pose proof (length_scan_token delim c s') as Hrest.
  destruct (scan_token delim (String c s')) as [tok rest]. simpl in *.
  rewrite IH by lia. reflexivity.
Qed.

Lemma var_lookup_first var_name before node after :
  Forall (fun n => name n <> var_name) before ->
  name node = var_name ->
  var_lookup var_name (before ++ node :: after)%list = Some (value node).
Proof.
  intros Hbefore Hnode. induction Hbefore as [|n before Hn _ IH]; simpl.
  - unfold strcmp_eq. rewrite Hnode, String.eqb_refl. reflexivity.
  - unfold strcmp_eq. destruct (String.eqb_spec (name n) var_name); [contradiction | exact IH].
Qed.

Lemma var_lookup_none var_name l :
  var_lookup var_name l = None <-> Forall (fun n => name n <> var_name) l.
Proof.
  induction l as [|n l IH]; simpl.
  - split; [constructor | reflexivity].
  - unfold strcmp_eq. destruct (String.eqb_spec (name n) var_name) as [Heq|Hne].
    + split; [discriminate|]. intros H. apply Forall_cons in H as [H _]. contradiction.
    + rewrite IH. rewrite Forall_cons. tauto.
Qed.

(** For a name that is not empty and holds no ['='], [getenv] is the
    lookup of exactly that name among the entries. *)
Lemma getenv_plain name (e : gmap string string) :
  name <> EmptyString ->
  has_char "=" name = false ->
  getenv name e = e !! name.
Proof.
  intros Hne Heq. unfold getenv, strcmp_eq.
  destruct (String.eqb_spec name EmptyString); [contradiction|].
  assert (Hs : split_at_char "=" name = None).
  { clear Hne n. induction name as [|d name IH]; [reflexivity|]. simpl in *.
    destruct (Ascii.eqb d "="); [discriminate|]. rewrite (IH Heq). reflexivity. }
  rewrite Hs. reflexivity.
Qed.

Lemma strip_prefix_app p s : strip_prefix p (p ++ s) = Some s.
Proof.
  induction p as [|c p IH]; [reflexivity|].
  change (String c p ++ s) with (String c (p ++ s)). simpl.
  rewrite Ascii.eqb_refl. exact IH.
Qed.

(** A name with a ['='] in it meets the entry of the part before its first
    ['='], when the value of that entry goes on as the name does. *)
Lemma getenv_through_value key wanted v (e : gmap string string) :
  key <> EmptyString ->
  has_char "=" key = false ->
  e !! key = Some (wanted ++ "=" ++ v) ->
  getenv (key ++ "=" ++ wanted) e = Some v.
Proof.
  intros Hne Heq He. unfold getenv, strcmp_eq.
  destruct (String.eqb_spec (key ++ "=" ++ wanted) EmptyString) as [H|_].
  { destruct key; [contradiction | discriminate]. }
  change (key ++ "=" ++ wanted) with (key ++ String "=" wanted).
  assert (Hs : split_at_char "=" (key ++ String "=" wanted) = Some (key, wanted)).
  { clear Hne He. induction key as [|d key IH].
    - reflexivity.
    - change (String d key ++ String "=" wanted)
        with (String d (key ++ String "=" wanted)).
      simpl in *. destruct (Ascii.eqb d "="); [discriminate|].
      rewrite (IH Heq). reflexivity. }
  rewrite Hs, He.
  change (wanted ++ "=" ++ v) with (wanted ++ String "=" v).
  replace (wanted ++ String "=" v) with ((wanted ++ "=") ++ v).
  - apply strip_prefix_app.
  - clear. induction wanted as [|c w IH]; [reflexivity|].
    change ((String c w ++ "=") ++ v) with (String c ((w ++ "=") ++ v)).
    rewrite IH. reflexivity.
Qed.

(** C7: every token of the line is substituted on its own and stays in the
    vector.  The vector [parse_line] builds is the list of tokens (the
    maximal runs of non-delimiter characters) with each one replaced by its
    substitution, so it has as many elements as there are tokens.  A token
    [$name] becomes the value [getenv] finds for [name], whatever the
    variable store holds; when [getenv] finds nothing, it becomes the value
    of the first node of the variable store whose name is [name]; when
    there is no such node either, it becomes the empty string.  Any other
    token is kept as it is. *)
Theorem C7_tokens_substituted :
  forall (line : string) (st : Shell),
    parse_line line st =
      (fun token => handle_variable_substitution token st) <$> tokenize line /\
    tokenize line = words_of DELIMITERS line /\
    length (parse_line line st) = length (tokenize line) /\
    (forall var_name v,
        getenv var_name (env st) = Some v ->
        handle_variable_substitution (String "$" var_name) st = v) /\
    (forall var_name,
        var_name <> EmptyString ->
        has_char "=" var_name = false ->
        getenv var_name (env st) = env st !! var_name) /\
    (forall var_name before node after,
        getenv var_name (env st) = None ->
        var_head st = (before ++ node :: after)%list ->
        Forall (fun n => name n <> var_name) before ->
        name node = var_name ->
        handle_variable_substitution (String "$" var_name) st = value node) /\
    (forall var_name,
        getenv var_name (env st) = None ->
        Forall (fun n => name n <> var_name) (var_head st) ->
        handle_variable_substitution (String "$" var_name) st = EmptyString) /\
    (forall c rest,
        c <> "$"%char ->
        handle_variable_substitution (String c rest) st = String c rest) /\
    handle_variable_substitution EmptyString st = EmptyString.
Proof.
  intros line st.
  assert (Hmap : parse_line line st =
    (fun token => handle_variable_substitution token st) <$> tokenize line)
    by apply parse_line_loop_tokens.
  split; [exact Hmap|]. split; [apply strtok_all_words; lia|].
  split; [rewrite Hmap; apply length_fmap|].
  split; [intros n v H; simpl; rewrite H; reflexivity|].
  split; [intros n Hne Heq; apply getenv_plain; assumption|].
  split.
  { intros n before node after He Hv Hb Hn. simpl. rewrite He, Hv.
    rewrite (var_lookup_first n before node after Hb Hn). reflexivity. }
  split.
  { intros n He Hall. simpl. rewrite He.
    rewrite (proj2 (var_lookup_none n (var_head st)) Hall). reflexivity. }
  split; [|reflexivity].
  intros c rest Hc. unfold handle_variable_substitution.
  destruct c as [[] [] [] [] [] [] [] []]; try reflexivity. contradiction.
Qed.

(** C10: the name looked up is the whole remainder of the token after the
    leading ['$'], also when it contains a ['/'].  What [getenv] finds for
    the whole remainder is the result; for a remainder without ['='] that
    is the entry of exactly that name.  Otherwise the result is the value
    of the first node of the store whose name equals the whole remainder,
    and the empty string when no node has that name, whatever is bound to
    a proper prefix of it.  A token whose first character is not ['$'] is
    copied as it is, wherever else it has a ['$']. *)
Theorem C10_name_is_whole_remainder :
  forall st : Shell,
    (forall rest v,
        getenv rest (env st) = Some v ->
        handle_variable_substitution (String "$" rest) st = v) /\
    (forall rest,
        rest <> EmptyString ->
        has_char "=" rest = false ->
        getenv rest (env st) = env st !! rest) /\
    (forall rest before node after,
        getenv rest (env st) = None ->
        var_head st = (before ++ node :: after)%list ->
        Forall (fun n => name n <> rest) before ->
        name node = rest ->
        handle_variable_substitution (String "$" rest) st = value node) /\
    (forall rest,
        getenv rest (env st) = None ->
        Forall (fun n => name n <> rest) (var_head st) ->
        handle_variable_substitution (String "$" rest) st = EmptyString) /\
    (forall x suffix,
        has_char "=" (x ++ "/" ++ suffix) = false ->
        env st !! (x ++ "/" ++ suffix) = None ->
        Forall (fun n => name n <> x ++ "/" ++ suffix) (var_head st) ->
        handle_variable_substitution ("$" ++ x ++ "/" ++ suffix) st = EmptyString) /\
    (forall rest, handle_variable_substitution (String "$" rest) st = resolve rest st) /\
    (forall st' rest,
        getenv rest (env st') = getenv rest (env st) ->
        var_lookup rest (var_head st') = var_lookup rest (var_head st) ->
        handle_variable_substitution (String "$" rest) st' =
        handle_variable_substitution (String "$" rest) st) /\
    (forall c rest,
        c <> "$"%char ->
        handle_variable_substitution (String c rest) st = String c rest) /\
    handle_variable_substitution "a$b" st = "a$b".
Proof.
  intros st.
  assert (Hres : forall s rest,
             handle_variable_substitution (String "$" rest) s = resolve rest s).
  { intros s rest. unfold resolve. simpl.
    destruct (getenv rest (env s)); [reflexivity|].
    destruct (var_lookup rest (var_head s)); reflexivity. }
  assert (Hmiss : forall rest,
             getenv rest (env st) = None ->
             Forall (fun n => name n <> rest) (var_head st) ->
             handle_variable_substitution (String "$" rest) st = EmptyString).
  { intros rest He Hall. rewrite Hres. unfold resolve. rewrite He.
    rewrite (proj2 (var_lookup_none rest (var_head st)) Hall). reflexivity. }
  split; [intros rest v H; rewrite Hres; unfold resolve; rewrite H; reflexivity|].
  split; [intros rest Hne Heq; apply getenv_plain; assumption|].
  split.
  { intros rest before node after He Hv Hb Hn. rewrite Hres. unfold resolve.
    rewrite He, Hv, (var_lookup_first rest before node after Hb Hn). reflexivity. }
  split; [exact Hmiss|].
  split.
  { intros x suffix Heq He Hall.
    change ("$" ++ x ++ "/" ++ suffix) with (String "$" (x ++ "/" ++ suffix)).
    apply Hmiss; [|exact Hall].
    rewrite getenv_plain; [exact He | | exact Heq].
    destruct x; discriminate. }
  split; [apply Hres|].
  split; [intros st' rest He Hv; rewrite !Hres; unfold resolve; rewrite He, Hv; reflexivity|].
  split; [|reflexivity].
  intros c rest Hc. unfold handle_variable_substitution.
  destruct c as [[] [] [] [] [] [] [] []]; try reflexivity. contradiction.
Qed.

(** ** Shell variables *)

Lemma split_at_char_first c before after :
  has_char c before = false ->
  split_at_char c (before ++ String c after) = Some (before, after).
Proof.
  intros H. induction before as [|d before IH]; simpl in *.
  - rewrite Ascii.eqb_refl. reflexivity.
  - destruct (Ascii.eqb d c); [discriminate|]. rewrite (IH H). reflexivity.
Qed.

Lemma var_update_none var v l :
  var_update var v l = None <-> var ∉ var_names l.
Proof.
  unfold var_names. induction l as [|n l IH]; simpl.
  - split; [intros _; apply not_elem_of_nil | reflexivity].
  - unfold strcmp_eq. rewrite not_elem_of_cons.
    destruct (String.eqb_spec (name n) var) as [Heq|Hne].
    + split; [discriminate | intros [H _]; congruence].
    + destruct (var_update var v l); [split; [discriminate|] | split; [|reflexivity]].
      * intros [_ H]. apply IH in H. discriminate.
      * intros _. split; [congruence | apply IH; reflexivity].
Qed.

Lemma filter_names_none var (l : list VarNode) :
  var ∉ name <$> l -> filter (fun n => name n = var) l = [].
Proof.
  induction l as [|m l IH]; intros H; [reflexivity|].
  simpl in H. apply not_elem_of_cons in H as [Hne H].
  rewrite filter_cons_False by congruence. exact (IH H).
Qed.

Lemma var_update_some var v l l' :
  var_update var v l = Some l' ->
  var_names l' = var_names l /\
  var ∈ var_names l /\
  var_lookup var l' = Some v /\
  (NoDup (var_names l) ->
   filter (fun n => name n = var) l' = [{| name := var; value := v |}]).
Proof.
  unfold var_names. revert l'. induction l as [|n l IH]; intros l' H; simpl in H.
  - discriminate.
  - unfold strcmp_eq in H. destruct (String.eqb_spec (name n) var) as [Heq|Hne].
    + injection H as <-. simpl. rewrite Heq. unfold strcmp_eq. rewrite String.eqb_refl.
      repeat split; [apply list_elem_of_here|].
      intros Hnd. apply NoDup_cons in Hnd as [Hnotin _].
      rewrite filter_cons_True by reflexivity. f_equal.
      apply filter_names_none. exact Hnotin.
    + destruct (var_update var v l) as [rest|] eqn:E; [|discriminate].
      injection H as <-. destruct (IH rest eq_refl) as (Hn & Hin & Hl & Hf).
      rewrite !fmap_cons, Hn.
      split; [reflexivity|]. split; [apply list_elem_of_further, Hin|].
      split.
      * simpl. unfold strcmp_eq.
        destruct (String.eqb_spec (name n) var); [contradiction | exact Hl].
      * intros Hnd. apply NoDup_cons in Hnd as [_ Hnd].
        rewrite filter_cons_False by exact Hne. apply Hf, Hnd.
Qed.



Lemma substitution_resolves rest st :
  handle_variable_substitution (String "$" rest) st = resolve rest st.
Proof.
  unfold resolve. simpl. destruct (getenv rest (env st)); [reflexivity|].
  destruct (var_lookup rest (var_head st)); reflexivity.
Qed.








(** ** Execution engine *)

Section EngineFacts.

Variable os : OS.

Lemma find_builtin_spec arg0 exec :
  find_builtin arg0 builtin_str (builtin_func os exec) =
  if strcmp_eq arg0 "cd" then Some (wsh_cd os)
  else if strcmp_eq arg0 "exit" then Some wsh_exit_cmd
  else if strcmp_eq arg0 "export" then Some wsh_export
  else if strcmp_eq arg0 "local" then Some wsh_local_cmd
  else if strcmp_eq arg0 "vars" then Some wsh_vars
  else if strcmp_eq arg0 "history" then Some (wsh_history_cmd exec)
  else if strcmp_eq arg0 "ls" then Some (wsh_ls os)
  else None.
Proof. reflexivity. Qed.

Lemma find_builtin_none arg0 exec :
  is_builtin arg0 = false ->
  find_builtin arg0 builtin_str (builtin_func os exec) = None.
Proof.
  intros H. rewrite find_builtin_spec. unfold is_builtin, builtin_str in H.
  cbn [existsb] in H.
  repeat (apply orb_false_elim in H as [-> H]). reflexivity.
Qed.

Lemma execute_command_step fuel arg0 rest st :
  execute_command os (S fuel) (arg0 :: rest) st =
  if is_replay (arg0 :: rest) then
    execute_history_command (execute_command os fuel)
                            (atoi (default EmptyString (head rest))) st
  else
    match find_builtin arg0 builtin_str (builtin_func os (execute_command os fuel)) with
    | Some f => f (arg0 :: rest) st
    | None =>
        let st1 := set_history (add_history (join_args (arg0 :: rest)) (history st)) st in
        Returned (fst (launch_process os (arg0 :: rest) st1))
                 (snd (launch_process os (arg0 :: rest) st1))
    end.
Proof.
  destruct rest as [|a1 rest]; cbn [execute_command is_replay arg lookup list_lookup head default].
  - destruct (find_builtin _ _ _); [reflexivity|].
    destruct (launch_process _ _ _); reflexivity.
  - destruct (_ && _); [reflexivity|].
    destruct (find_builtin _ _ _); [reflexivity|].
    destruct (launch_process _ _ _); reflexivity.
Qed.

(** The parent side of [launch_process] returns 1 whatever happens to the
    child, and touches nothing but the trace. *)
Lemma launch_process_returns args st :
  exists st',
    launch_process os args st = (1, st') /\
    history st' = history st /\ env st' = env st /\ var_head st' = var_head st.
Proof.
  unfold launch_process. destruct (negb (os_fork os (trace st)));
    eexists; (split; [reflexivity|]); repeat split.
Qed.

Lemma wsh_cd_returns args st : exists st', wsh_cd os args st = Returned 1 st'.
Proof.
  unfold wsh_cd. destruct (arg 1 args); [|eexists; reflexivity].
  destruct (os_chdir os (trace st) s); eexists; reflexivity.
Qed.

Lemma wsh_export_returns args st : exists st', wsh_export args st = Returned 1 st'.
Proof.
  unfold wsh_export. destruct (arg 1 args) as [a|]; [|eexists; reflexivity].
  destruct (split_at_char "=" a) as [[var val]|]; [|eexists; reflexivity].
  destruct (setenv var val (env st)); eexists; reflexivity.
Qed.

Lemma wsh_local_cmd_returns args st : exists st', wsh_local_cmd args st = Returned 1 st'.
Proof.
  unfold wsh_local_cmd. destruct (arg 1 args) as [a|]; [|eexists; reflexivity].
  destruct (split_at_char "=" a) as [[var val]|]; [|eexists; reflexivity].
  destruct (var_update _ _ _); eexists; reflexivity.
Qed.

Lemma wsh_ls_returns args st : exists st', wsh_ls os args st = Returned 1 st'.
Proof.
  unfold wsh_ls. destruct (negb (os_fork os (trace st))); eexists; reflexivity.
Qed.

(** [history] without a replay: listing, resizing, or nothing. *)
Lemma wsh_history_cmd_returns exec arg0 rest st :
  is_replay ("history" :: rest) = false ->
  exists st', wsh_history_cmd exec (arg0 :: rest) st = Returned 1 st'.
Proof.
  intros H. unfold wsh_history_cmd.
  destruct rest as [|a1 rest]; cbn [arg lookup list_lookup]; [eexists; reflexivity|].
  destruct (strcmp_eq a1 "set").
  - destruct rest as [|a2 rest]; cbn [lookup list_lookup]; [eexists; reflexivity|].
    destruct (atoi a2 <=? 0); [eexists; reflexivity|].
    destruct (set_history_capacity _ _); eexists; reflexivity.
  - cbn [is_replay] in H. change (strcmp_eq "history" "history") with true in H.
    simpl andb in H. rewrite H. eexists; reflexivity.
Qed.

Lemma execute_history_command_out_of_range exec k st :
  k <= 0 \/ count (history st) < k ->
  execute_history_command exec k st = Returned 1 st.
Proof.
  intros H. unfold execute_history_command.
  destruct ((k <=? 0) || (count (history st) <? k)) eqn:E; [reflexivity|].
  apply orb_false_elim in E as [E1 E2]. lia.
Qed.

Lemma execute_history_command_in_range exec k st :
  wf_history (history st) ->
  1 <= k <= count (history st) ->
  exists command,
    recent_slot (history st) (k - 1) = Some command /\
    execute_history_command exec k st =
      match parse_line command st with
      | [] => Returned 1 st
      | (_ :: _) as args => drop_status (exec args st)
      end.
Proof.
  intros (Hcap & Hlen & Hcount & Hstart & Hsome) Hk.
  destruct (Hsome (k - 1)) as [command Hc]; [lia|].
  exists command. split; [exact Hc|].
  unfold execute_history_command.
  destruct ((k <=? 0) || (count (history st) <? k)) eqn:E.
  { apply orb_true_elim in E as [E|E]; lia. }
  unfold recent_slot in Hc.
  replace (start (history st) + count (history st) - 1 - (k - 1))
    with (start (history st) + count (history st) - k) in Hc by lia.
  rewrite Hc. destruct (parse_line command st); [reflexivity|].
  unfold drop_status. destruct (exec _ st); reflexivity.
Qed.

(** Outside history replay and [exit], every call returns 1. *)
Lemma execute_command_returns fuel args st :
  args <> [] ->
  head args <> Some "exit" ->
  is_replay args = false ->
  exists st', execute_command os (S fuel) args st = Returned 1 st'.
Proof.
  intros Hne Hexit Hreplay. destruct args as [|arg0 rest]; [contradiction|].
  rewrite execute_command_step, Hreplay, find_builtin_spec.
  destruct (strcmp_eq arg0 "cd"); [apply wsh_cd_returns|].
  unfold strcmp_eq at 1. destruct (String.eqb_spec arg0 "exit") as [->|_]; [contradiction|].
  destruct (strcmp_eq arg0 "export"); [apply wsh_export_returns|].
  destruct (strcmp_eq arg0 "local"); [apply wsh_local_cmd_returns|].
  destruct (strcmp_eq arg0 "vars"); [eexists; reflexivity|].
  unfold strcmp_eq at 1. destruct (String.eqb_spec arg0 "history") as [->|_];
    [apply wsh_history_cmd_returns, Hreplay|].
  destruct (strcmp_eq arg0 "ls"); [apply wsh_ls_returns|].
  cbv zeta.
  destruct (launch_process_returns (arg0 :: rest)
              (set_history (add_history (join_args (arg0 :: rest)) (history st)) st))
    as (st' & -> & _). eexists; reflexivity.
Qed.


Lemma execute_history_command_entry exec k command st :
  1 <= k <= count (history st) ->
  recent (history st) !! Z.to_nat (k - 1) = Some (Some command) ->
  execute_history_command exec k st =
    match parse_line command st with
    | [] => Returned 1 st
    | (_ :: _) as args => drop_status (exec args st)
    end.
Proof.
  intros Hk Hentry. rewrite recent_lookup_lt in Hentry by lia.
  replace (Z.of_nat (Z.to_nat (k - 1))) with (k - 1) in Hentry by lia.
  injection Hentry as Hslot. unfold recent_slot in Hslot.
  replace (start (history st) + count (history st) - 1 - (k - 1))
    with (start (history st) + count (history st) - k) in Hslot by lia.
  unfold execute_history_command.
  destruct ((k <=? 0) || (count (history st) <? k)) eqn:E.
  { apply orb_true_elim in E as [E|E]; lia. }
  rewrite Hslot. destruct (parse_line command st); [reflexivity|].
  unfold drop_status. destruct (exec _ st); reflexivity.
Qed.

Lemma execute_command_replay fuel a1 more st :
  0 < atoi a1 ->
  execute_command os (S fuel) ("history" :: a1 :: more) st =
  execute_history_command (execute_command os fuel) (atoi a1) st.
Proof.
  intros Hpos. rewrite execute_command_step.
  assert (is_replay ("history" :: a1 :: more) = true) as ->; [|reflexivity].
  cbn [is_replay]. change (strcmp_eq "history" "history") with true.
  simpl andb. apply Z.ltb_lt. exact Hpos.
Qed.

(** A call that is not a replay never reaches the recursion: its result
    is the same for every depth left. *)
Lemma execute_command_fuel f1 f2 args st :
  is_replay args = false ->
  execute_command os (S f1) args st = execute_command os (S f2) args st.
Proof.
  intros Hreplay. destruct args as [|arg0 rest]; [reflexivity|].
  rewrite !execute_command_step, Hreplay, !find_builtin_spec.
  destruct (strcmp_eq arg0 "cd"); [reflexivity|].
  destruct (strcmp_eq arg0 "exit"); [reflexivity|].
  destruct (strcmp_eq arg0 "export"); [reflexivity|].
  destruct (strcmp_eq arg0 "local"); [reflexivity|].
  destruct (strcmp_eq arg0 "vars"); [reflexivity|].
  unfold strcmp_eq at 1 3.
  destruct (String.eqb_spec arg0 "history") as [->|_]; [|reflexivity].
  unfold wsh_history_cmd.
  destruct rest as [|a1 rest]; cbn [arg lookup list_lookup]; [reflexivity|].
  destruct (strcmp_eq a1 "set"); [reflexivity|].
  cbn [is_replay] in Hreplay. change (strcmp_eq "history" "history") with true in Hreplay.
  simpl andb in Hreplay. rewrite Hreplay. reflexivity.
Qed.

Lemma drop_status_twice o : drop_status (drop_status o) = drop_status o.
Proof. destruct o; reflexivity. Qed.

(** A chain of replays that ends does what the vector at its end does,
    with 1 as return value. *)
Lemma execute_command_follows_replays fuel depth args final st :
  replay_target depth args st = Some final ->
  execute_command os (depth + S fuel) args st =
  if is_replay args then drop_status (execute_command os (S fuel) final st)
  else execute_command os (S fuel) final st.
Proof.
  revert args. induction depth as [|depth IH]; intros args Ht.
  - cbn [replay_target] in Ht. destruct (is_replay args); [discriminate|].
    injection Ht as <-. reflexivity.
  - cbn [replay_target] in Ht. destruct (is_replay args) eqn:Hr.
    2:{ injection Ht as <-. apply execute_command_fuel, Hr. }
    destruct args as [|arg0 [|a1 more]]; try discriminate Hr.
    cbn [arg lookup list_lookup default id] in Ht. cbv zeta in Ht.
    change (S depth + S fuel)%nat with (S (depth + S fuel)).
    rewrite execute_command_step, Hr. cbn [head default id].
    assert (Hpos : 0 < atoi a1).
    { cbn [is_replay] in Hr. apply andb_prop in Hr as [_ Hr].
      apply Z.ltb_lt. exact Hr. }
    destruct (count (history st) <? atoi a1) eqn:Ec.
    + injection Ht as <-. apply Z.ltb_lt in Ec.
      rewrite execute_history_command_out_of_range by (right; exact Ec).
      reflexivity.
    + apply Z.ltb_ge in Ec.
      rewrite recent_lookup_lt in Ht by lia.
      destruct (recent_slot (history st) (Z.of_nat (Z.to_nat (atoi a1 - 1))))
        as [command|] eqn:Es.
      * rewrite (execute_history_command_entry _ _ command st)
          by (try lia; rewrite recent_lookup_lt by lia; rewrite Es; reflexivity).
        specialize (IH _ Ht).
        destruct (parse_line command st) as [|t ts] eqn:Ep.
        { cbn [replay_target is_replay] in Ht.
          destruct depth; cbn [replay_target is_replay] in Ht;
            injection Ht as <-; reflexivity. }
        rewrite IH. destruct (is_replay (t :: ts)); [apply drop_status_twice|reflexivity].
      * injection Ht as <-.
        unfold execute_history_command.
        destruct ((atoi a1 <=? 0) || (count (history st) <? atoi a1)) eqn:E;
          [reflexivity|].
        unfold recent_slot in Es.
        replace (start (history st) + count (history st) - 1
                 - Z.of_nat (Z.to_nat (atoi a1 - 1)))
          with (start (history st) + count (history st) - atoi a1) in Es by lia.
        rewrite Es. reflexivity.
Qed.

(** The vector at the end of a chain of replays is not a replay. *)
Lemma replay_target_not_replay depth args final st :
  replay_target depth args st = Some final -> is_replay final = false.
Proof.
  revert args. induction depth as [|depth IH]; intros args Ht;
    cbn [replay_target] in Ht; destruct (is_replay args) eqn:Hr;
    try discriminate; try (injection Ht as <-; exact Hr).
  cbv zeta in Ht.
  destruct (count (history st) <? _); [injection Ht as <-; reflexivity|].
  destruct (recent (history st) !! _) as [[command|]|];
    try (injection Ht as <-; reflexivity).
  exact (IH _ Ht).
Qed.

(** Replays that never end in a vector of another kind never return. *)
Lemma endless_replay_never_returns fuel args st :
  (forall depth, replay_target depth args st = None) ->
  execute_command os fuel args st = OutOfFuel.
Proof.
  revert args. induction fuel as [|fuel IH]; intros args Hnone; [reflexivity|].
  pose proof (Hnone 0%nat) as H0. cbn [replay_target] in H0.
  destruct (is_replay args) eqn:Hr; [clear H0|discriminate].
  destruct args as [|arg0 [|a1 more]]; try discriminate Hr.
  rewrite execute_command_step, Hr. cbn [head default id].
  assert (Hpos : 0 < atoi a1).
  { cbn [is_replay] in Hr. apply andb_prop in Hr as [_ Hr].
    apply Z.ltb_lt. exact Hr. }
  assert (Hstep : forall depth,
             replay_target (S depth) (arg0 :: a1 :: more) st = None)
    by (intros depth; apply Hnone).
  cbn [replay_target] in Hstep. rewrite Hr in Hstep.
  cbn [arg lookup list_lookup default id] in Hstep. cbv zeta in Hstep.
  destruct (count (history st) <? atoi a1) eqn:Ec;
    [specialize (Hstep 0%nat); discriminate|].
  apply Z.ltb_ge in Ec. rewrite recent_lookup_lt in Hstep by lia.
  destruct (recent_slot (history st) (Z.of_nat (Z.to_nat (atoi a1 - 1))))
    as [command|] eqn:Es; [|specialize (Hstep 0%nat); discriminate].
  rewrite (execute_history_command_entry _ _ command st)
    by (try lia; rewrite recent_lookup_lt by lia; rewrite Es; reflexivity).
  destruct (parse_line command st) as [|t ts] eqn:Ep.
  { specialize (Hstep 0%nat). discriminate. }
  rewrite (IH _ Hstep). reflexivity.
Qed.

(** C9 (as amended): a call of [execute_command] on a non-empty vector
    whose command is neither [exit] nor a history replay returns 1 on every
    path, whatever the system answers.  [exit] without an argument ends the
    shell with status [EXIT_SUCCESS] after [cleanup_shell], and [exit] with
    an argument prints a diagnostic and returns 1.  A history replay
    returns 1 with the state unchanged when the index is above the count;
    for an index in range whose entry is not a replay itself it does what
    the tokens of the entry do, with 1 as return value: it returns 1 when
    the command of the entry is not [exit] or [exit] has an argument, and
    it ends the shell, with [EXIT_SUCCESS] after [cleanup_shell], when the
    entry is [exit] alone.  The same holds for replays of replays, of any
    depth, that end in a vector that is not a replay ([replay_target]):
    the call returns 1, unless that vector is [exit] alone, which ends the
    shell with [EXIT_SUCCESS] after [cleanup_shell]. *)
Theorem C9_only_exit_ends_the_shell fuel args st :
  args <> [] ->
  head args <> Some "exit" ->
  is_replay args = false ->
  (exists st', execute_command os (S fuel) args st = Returned 1 st') /\
  execute_command os (S fuel) ["exit"] st = Exited EXIT_SUCCESS (cleanup_shell st) /\
  (forall a rest,
      execute_command os (S fuel) ("exit" :: a :: rest) st =
      Returned 1 (emit [Stderr ("wsh: exit takes no arguments" ++ nl)] st)) /\
  (forall a1 more,
      0 < atoi a1 ->
      count (history st) < atoi a1 ->
      execute_command os (S fuel) ("history" :: a1 :: more) st = Returned 1 st) /\
  (forall a1 more command,
      1 <= atoi a1 <= count (history st) ->
      recent (history st) !! Z.to_nat (atoi a1 - 1) = Some (Some command) ->
      is_replay (parse_line command st) = false ->
      (head (parse_line command st) <> Some "exit" ->
       exists st',
         execute_command os (S (S fuel)) ("history" :: a1 :: more) st = Returned 1 st') /\
      (parse_line command st = ["exit"] ->
       execute_command os (S (S fuel)) ("history" :: a1 :: more) st =
       Exited EXIT_SUCCESS (cleanup_shell st)) /\
      (forall a rest,
          parse_line command st = "exit" :: a :: rest ->
          execute_command os (S (S fuel)) ("history" :: a1 :: more) st =
          Returned 1 (emit [Stderr ("wsh: exit takes no arguments" ++ nl)] st))) /\
  (forall depth replayed final,
      is_replay replayed = true ->
      replay_target depth replayed st = Some final ->
      is_replay final = false /\
      (head final <> Some "exit" ->
       exists st',
         execute_command os (depth + S fuel) replayed st = Returned 1 st') /\
      (final = ["exit"] ->
       execute_command os (depth + S fuel) replayed st =
       Exited EXIT_SUCCESS (cleanup_shell st)) /\
      (forall a rest,
          final = "exit" :: a :: rest ->
          execute_command os (depth + S fuel) replayed st =
          Returned 1 (emit [Stderr ("wsh: exit takes no arguments" ++ nl)] st))).
Proof.
  intros Hne Hexit Hreplay.
  split; [apply execute_command_returns; assumption|].
  split; [reflexivity|]. split; [intros a rest; reflexivity|].
  split.
  { intros a1 more Hpos Hout. rewrite execute_command_replay by exact Hpos.
    apply execute_history_command_out_of_range. right. exact Hout. }
  split.
  2:{ intros depth replayed final Hr Ht.
      pose proof (replay_target_not_replay _ _ _ _ Ht) as Hnr.
      rewrite (execute_command_follows_replays fuel depth replayed final st Ht), Hr.
      split; [exact Hnr|]. split; [|split].
      - intros Hhead. destruct final as [|t ts]; [eexists; reflexivity|].
        destruct (execute_command_returns fuel (t :: ts) st) as [st' ->];
          [discriminate | exact Hhead | exact Hnr |].
        eexists; reflexivity.
      - intros ->. reflexivity.
      - intros a rest ->. reflexivity. }
  intros a1 more command Hk Hentry Hnr.
  rewrite execute_command_replay by lia.
  rewrite (execute_history_command_entry _ _ command st Hk Hentry).
  split; [|split].
  - intros Hhead.
    destruct (parse_line command st) as [|arg0 rest] eqn:Ep; [eexists; reflexivity|].
    destruct (execute_command_returns fuel (arg0 :: rest) st) as [st' ->];
      [discriminate | exact Hhead | exact Hnr |].
    eexists; reflexivity.
  - intros ->. reflexivity.
  - intros a rest ->. reflexivity.
Qed.

Lemma parse_line_set_history line h st :
  parse_line line (set_history h st) = parse_line line st.
Proof. unfold parse_line. rewrite !parse_line_loop_tokens. reflexivity. Qed.

Lemma capacity_add_history command h :
  capacity (add_history command h) = capacity h.
Proof.
  unfold add_history. destruct (capacity h =? 0); [reflexivity|].
  destruct (existsb _ _); [reflexivity|]. destruct (_ && _); [reflexivity|].
  destruct (count h <? capacity h); reflexivity.
Qed.

(** Recording the same line twice in a row is recording it once. *)
Lemma record_entry_twice cap command l :
  0 < cap ->
  record_entry cap command (record_entry cap command l) = record_entry cap command l.
Proof.
  intros Hcap. unfold record_entry.
  destruct (existsb _ builtin_str); [reflexivity|].
  destruct (slot_is (mjoin (head l)) command) eqn:Es; [rewrite Es; reflexivity|].
  destruct (Z.to_nat cap) as [|n] eqn:En; [lia|].
  simpl. unfold strcmp_eq. rewrite String.eqb_refl. reflexivity.
Qed.

(** C4 (as amended): for an executed line whose command is not a
    built-in, the trimmed line as typed is handed to the history first,
    and the substituted argument vector rejoined with single spaces is
    handed to it next; each is stored unless it repeats the newest entry.
    When the rejoined vector is the typed line itself, the line is
    therefore recorded once. *)
Theorem C4_line_then_rejoined_vector fuel line st :
  wf_history (history st) ->
  is_comment_or_blank (skip_blanks line) = false ->
  is_builtin (default EmptyString (head (parse_line (skip_blanks line) st))) = false ->
  parse_line (skip_blanks line) st <> [] ->
  exists st',
    main_step os (S fuel) line st = Returned 1 st' /\
    recent (history st') =
      record_entry (capacity (history st))
        (join_args (parse_line (skip_blanks line) st))
        (record_entry (capacity (history st))
           (strip_newline (skip_blanks line)) (recent (history st))) /\
    (join_args (parse_line (skip_blanks line) st) = strip_newline (skip_blanks line) ->
     recent (history st') =
       record_entry (capacity (history st))
         (strip_newline (skip_blanks line)) (recent (history st))).
Proof.
  intros Hwf Hskip Hb Hargs. unfold main_step.
  destruct (skip_blanks line) as [|c trimmed] eqn:Et; [discriminate|].
  simpl in Hskip. rewrite Hskip. rewrite parse_line_set_history.
  set (typed := strip_newline (String c trimmed)).
  destruct (parse_line (String c trimmed) st) as [|arg0 rest] eqn:Ep; [contradiction|].
  simpl in Hb.
  rewrite execute_command_step.
  assert (Hr : is_replay (arg0 :: rest) = false).
  { destruct rest as [|a1 rest]; [reflexivity|]. cbn [is_replay].
    unfold is_builtin, builtin_str in Hb. cbn [existsb] in Hb.
    do 5 (apply orb_false_elim in Hb as [_ Hb]).
    apply orb_false_elim in Hb as [-> _]. reflexivity. }
  rewrite Hr, (find_builtin_none _ _ Hb). cbv zeta.
  set (st1 := set_history (add_history typed (history st)) st).
  destruct (launch_process_returns (arg0 :: rest)
              (set_history (add_history (join_args (arg0 :: rest)) (history st1)) st1))
    as (st' & Hl & Hh & _).
  rewrite Hl. exists st'. split; [reflexivity|].
  assert (Hrec : recent (history st') =
    record_entry (capacity (history st)) (join_args (arg0 :: rest))
      (record_entry (capacity (history st)) typed (recent (history st)))).
  { rewrite Hh. simpl history.
    rewrite add_history_recent by (apply add_history_wf, Hwf).
    rewrite capacity_add_history, add_history_recent by exact Hwf. reflexivity. }
  split; [exact Hrec|]. intros Heq. rewrite Hrec, Heq.
  apply record_entry_twice. destruct Hwf as (Hcap & _). lia.
Qed.

(** The line [history 1] is recorded before it is executed and so replays
    itself: the recursion has no end, whatever fuel it is given. *)
Lemma replay_of_itself_never_returns fuel st :
  0 < count (history st) ->
  recent_slot (history st) 0 = Some "history 1" ->
  execute_command os fuel ["history"; "1"] st = OutOfFuel.
Proof.
  intros Hcount Hslot. induction fuel as [|fuel IH]; [reflexivity|].
  rewrite execute_command_step.
  change (is_replay ["history"; "1"]) with true. cbv iota.
  change (atoi (default EmptyString (head ["1"]))) with 1.
  unfold execute_history_command.
  destruct ((1 <=? 0) || (count (history st) <? 1)) eqn:E.
  { apply orb_true_elim in E as [E|E]; lia. }
  unfold recent_slot in Hslot.
  replace (start (history st) + count (history st) - 1 - 0)
    with (start (history st) + count (history st) - 1) in Hslot by lia.
  rewrite Hslot.
  assert (Hp : parse_line "history 1" st = ["history"; "1"]).
  { unfold parse_line. rewrite parse_line_loop_tokens. reflexivity. }
  rewrite Hp, IH. reflexivity.
Qed.

End EngineFacts.

Lemma three_lines_wf : wf_history three_lines.
Proof. unfold three_lines. repeat apply add_history_wf. apply initial_history_wf. Qed.


(** On [sample_os] the replay of an entry that is itself a replay ends in
    [echo hi] and returns 1. *)
Lemma replay_of_replay_returns :
  replay_target 2 ["history"; "1"] nested_replay_shell = Some ["echo"; "hi"] /\
  exists st',
    execute_command sample_os 3 ["history"; "1"] nested_replay_shell = Returned 1 st'.
Proof. split; [reflexivity|]. eexists. vm_compute. reflexivity. Qed.

Lemma C9_witness :
  ["echo"; "hi"] <> [] /\
  head ["echo"; "hi"] <> Some "exit" /\
  is_replay ["echo"; "hi"] = false /\
  exists st', execute_command sample_os 1 ["echo"; "hi"] (initialize_shell ∅) = Returned 1 st'.
Proof.
  assert (H1 : ["echo"; "hi"] <> []) by discriminate.
  assert (H2 : head ["echo"; "hi"] <> Some "exit") by discriminate.
  assert (H3 : is_replay ["echo"; "hi"] = false) by reflexivity.
  exact (conj H1 (conj H2 (conj H3
    (proj1 (C9_only_exit_ends_the_shell sample_os 0 ["echo"; "hi"]
              (initialize_shell ∅) H1 H2 H3))))).
Defined.

(** On [sample_os], after the lines [$C] and [local C=exit], the line
    [history 4] replays [$C], which now reads [exit]: the call of
    [execute_command] on the vector [history 4] ends the shell. *)
Lemma C9_counterexample :
  head ["history"; "4"] <> Some "exit" /\
  execute_command sample_os 2 ["history"; "4"] replay_exit_shell =
    Exited EXIT_SUCCESS (cleanup_shell replay_exit_shell) /\
  (forall st', execute_command sample_os 2 ["history"; "4"] replay_exit_shell
               <> Returned 1 st') /\
  main_loop sample_os 2
    ["$C" ++ nl; "local C=exit" ++ nl; "history 4" ++ nl; "echo never" ++ nl]
    (initialize_shell ∅) =
    Exited EXIT_SUCCESS (cleanup_shell replay_exit_shell).
Proof.
  assert (H : execute_command sample_os 2 ["history"; "4"] replay_exit_shell =
              Exited EXIT_SUCCESS (cleanup_shell replay_exit_shell)) by reflexivity.
  split; [discriminate|]. split; [exact H|]. split.
  - intros st'. rewrite H. discriminate.
  - vm_compute. reflexivity.
Qed.

Lemma C4_witness :
  wf_history (history (initialize_shell ∅)) /\
  is_comment_or_blank (skip_blanks ("echo hi" ++ nl)) = false /\
  is_builtin (default EmptyString
                (head (parse_line (skip_blanks ("echo hi" ++ nl)) (initialize_shell ∅))))
    = false /\
  parse_line (skip_blanks ("echo hi" ++ nl)) (initialize_shell ∅) <> [] /\
  exists st',
    main_step sample_os 1 ("echo hi" ++ nl) (initialize_shell ∅) = Returned 1 st' /\
    recent (history st') =
      record_entry (capacity (history (initialize_shell ∅)))
        (join_args (parse_line (skip_blanks ("echo hi" ++ nl)) (initialize_shell ∅)))
        (record_entry (capacity (history (initialize_shell ∅)))
           (strip_newline (skip_blanks ("echo hi" ++ nl)))
           (recent (history (initialize_shell ∅)))) /\
    (join_args (parse_line (skip_blanks ("echo hi" ++ nl)) (initialize_shell ∅)) =
     strip_newline (skip_blanks ("echo hi" ++ nl)) ->
     recent (history st') =
       record_entry (capacity (history (initialize_shell ∅)))
         (strip_newline (skip_blanks ("echo hi" ++ nl)))
         (recent (history (initialize_shell ∅)))).
Proof.
  assert (H1 : wf_history (history (initialize_shell ∅))) by exact initial_history_wf.
  assert (H2 : is_comment_or_blank (skip_blanks ("echo hi" ++ nl)) = false) by reflexivity.
  assert (H3 : is_builtin (default EmptyString
                (head (parse_line (skip_blanks ("echo hi" ++ nl)) (initialize_shell ∅))))
               = false) by reflexivity.
  assert (H4 : parse_line (skip_blanks ("echo hi" ++ nl)) (initialize_shell ∅) <> [])
    by discriminate.
  exact (conj H1 (conj H2 (conj H3 (conj H4
    (C4_line_then_rejoined_vector sample_os 0 ("echo hi" ++ nl) (initialize_shell ∅)
       H1 H2 H3 H4))))).
Defined.

(** The line [echo  hi], typed with two spaces, leaves two entries: the
    line as typed and, as the newest one, the vector rejoined with one
    space. *)
Lemma C4_counterexample :
  exists st',
    main_step sample_os 1 ("echo  hi" ++ nl) (initialize_shell ∅) = Returned 1 st' /\
    show_history (history st') = ["1) echo hi" ++ nl; "2) echo  hi" ++ nl] /\
    recent (history st') <> [Some "echo  hi"].
Proof.
  eexists. split; [reflexivity|]. split; [reflexivity | discriminate].
Qed.

(** * Further properties of the code *)

(** ** History ring *)

Lemma add_history_same command h :
  wf_history h ->
  is_builtin command = true \/ mjoin (head (recent h)) = Some command ->
  add_history command h = h.
Proof.
  intros (Hcap & _) H. unfold add_history.
  destruct (capacity h =? 0); [reflexivity|].
  change (existsb (fun b => strcmp_eq command b) builtin_str) with (is_builtin command).
  destruct (is_builtin command); [reflexivity|].
  destruct H as [H|H]; [discriminate|].
  rewrite head_recent in H. destruct (0 <? count h); [|discriminate].
  unfold recent_slot in H. rewrite Z.sub_0_r in H. rewrite H. simpl.
  unfold strcmp_eq. rewrite String.eqb_refl. reflexivity.
Qed.

Lemma count_add_history command h :
  wf_history h ->
  is_builtin command = false ->
  mjoin (head (recent h)) <> Some command ->
  count (add_history command h) = Z.min (count h + 1) (capacity h).
Proof.
  intros (Hcap & _ & Hcount & _) Hb Hnew. unfold add_history.
  destruct (capacity h =? 0) eqn:E0; [lia|].
  change (existsb (fun b => strcmp_eq command b) builtin_str) with (is_builtin command).
  rewrite Hb.
  assert (Hdup : (0 <? count h)
                 && slot_is (slot_get (commands h)
                               (c_rem (start h + count h - 1) (capacity h))) command
                 = false).
  { rewrite head_recent in Hnew. unfold recent_slot in Hnew. rewrite Z.sub_0_r in Hnew.
    destruct (0 <? count h); [|reflexivity]. simpl.
    destruct (slot_get _ _) as [c|]; [|reflexivity]. simpl. unfold strcmp_eq.
    destruct (String.eqb_spec c command); [congruence | reflexivity]. }
  rewrite Hdup. destruct (count h <? capacity h) eqn:E; simpl; lia.
Qed.

(** X1: [add_history] on a well-formed ring.  The ring stays well formed
    and keeps its capacity.  The bare name of a built-in and a repetition
    of the newest entry leave the ring exactly as it was.  Any other
    command becomes the newest entry, in front of the previous entries, of
    which the oldest one is dropped when the ring was full. *)
Theorem X1_add_history_ring (command : string) (h : History) :
  wf_history h ->
  wf_history (add_history command h) /\
  capacity (add_history command h) = capacity h /\
  (is_builtin command = true \/ mjoin (head (recent h)) = Some command ->
   add_history command h = h) /\
  (is_builtin command = false ->
   mjoin (head (recent h)) <> Some command ->
   recent (add_history command h) =
     Some command :: take (Z.to_nat (capacity h) - 1) (recent h) /\
   count (add_history command h) = Z.min (count h + 1) (capacity h)).
Proof.
  intros Hwf. split; [apply add_history_wf, Hwf|].
  split; [apply capacity_add_history|].
  split; [apply add_history_same, Hwf|].
  intros Hb Hnew. split; [|apply count_add_history; assumption].
  rewrite add_history_recent by exact Hwf. unfold record_entry.
  change (existsb (fun b => strcmp_eq command b) builtin_str) with (is_builtin command).
  rewrite Hb.
  destruct (slot_is (mjoin (head (recent h))) command) eqn:E.
  - destruct (mjoin (head (recent h))) as [c|]; [|discriminate].
    simpl in E. apply String.eqb_eq in E. congruence.
  - destruct Hwf as (Hcap & _).
    destruct (Z.to_nat (capacity h)) as [|n] eqn:En; [lia|].
    simpl. rewrite Nat.sub_0_r. reflexivity.
Qed.

Lemma X1_witness :
  wf_history three_lines /\
  wf_history (add_history "d" three_lines) /\
  capacity (add_history "d" three_lines) = capacity three_lines /\
  (is_builtin "d" = true \/ mjoin (head (recent three_lines)) = Some "d" ->
   add_history "d" three_lines = three_lines) /\
  (is_builtin "d" = false ->
   mjoin (head (recent three_lines)) <> Some "d" ->
   recent (add_history "d" three_lines) =
     Some "d" :: take (Z.to_nat (capacity three_lines) - 1) (recent three_lines) /\
   count (add_history "d" three_lines) =
     Z.min (count three_lines + 1) (capacity three_lines)).
Proof.
  exact (conj three_lines_wf (X1_add_history_ring "d" three_lines three_lines_wf)).
Defined.

Lemma distinct_neighbours_lookup (l : list (option string)) :
  distinct_neighbours l <->
  forall i x y, l !! i = Some x -> l !! S i = Some y -> x <> y.
Proof.
  induction l as [|x l IH]; [split; [intros _ i ? ? H; discriminate | intros _; exact I]|].
  destruct l as [|y l].
  - split; [|intros _; exact I]. intros _ [|i] ? ? H1 H2; discriminate.
  - change (distinct_neighbours (x :: y :: l))
      with (x <> y /\ distinct_neighbours (y :: l)).
    rewrite IH. split.
    + intros [Hxy H] [|i] a b Ha Hb.
      * simpl in Ha, Hb. congruence.
      * exact (H i a b Ha Hb).
    + intros H. split; [exact (H O x y eq_refl eq_refl)|].
      intros i a b Ha Hb. exact (H (S i) a b Ha Hb).
Qed.

Lemma distinct_neighbours_reverse (l : list (option string)) :
  distinct_neighbours l -> distinct_neighbours (reverse l).
Proof.
  rewrite !distinct_neighbours_lookup. intros H i x y Hx Hy.
  assert (Hi : (S i < length l)%nat).
  { apply lookup_lt_Some in Hy. rewrite length_reverse in Hy. exact Hy. }
  rewrite reverse_lookup in Hx by lia. rewrite reverse_lookup in Hy by lia.
  intros ->. refine (H (length l - S (S i))%nat y y Hy _ eq_refl).
  replace (S (length l - S (S i)))%nat with (length l - S i)%nat by lia. exact Hx.
Qed.

(** X2: neither recording nor resizing ever leaves two identical entries
    next to each other in a ring that had none. *)
Theorem X2_history_keeps_neighbours_distinct (command : string) (new_capacity : Z)
        (h : History) :
  wf_history h ->
  distinct_neighbours (recent h) ->
  distinct_neighbours (recent (add_history command h)) /\
  (0 < new_capacity ->
   distinct_neighbours (recent (fst (set_history_capacity new_capacity h)))).
Proof.
  intros Hwf Hd. split; [apply add_history_no_repeats; assumption|].
  intros Hpos. unfold set_history_capacity.
  destruct (new_capacity <=? 0) eqn:E; [lia|]. simpl.
  rewrite resize_history_recent by assumption.
  apply distinct_neighbours_reverse, distinct_neighbours_take, Hd.
Qed.

Lemma X2_witness :
  wf_history three_lines /\
  distinct_neighbours (recent three_lines) /\
  distinct_neighbours (recent (add_history "c" three_lines)) /\
  (0 < 2 -> distinct_neighbours (recent (fst (set_history_capacity 2 three_lines)))).
Proof.
  assert (Hd : distinct_neighbours (recent three_lines)).
  { repeat split; discriminate. }
  exact (conj three_lines_wf (conj Hd
    (X2_history_keeps_neighbours_distinct "c" 2 three_lines three_lines_wf Hd))).
Defined.

(** X3: [set_history_capacity] with a positive argument on a well-formed
    ring.  The new ring has the requested capacity, starts at slot 0 and
    holds the [min new_capacity count] most recent entries, the oldest of
    them now in the place of the newest; it is well formed when the
    capacity is at most [2^30]. *)
Theorem X3_resize_keeps_most_recent (new_capacity : Z) (h : History) :
  wf_history h ->
  0 < new_capacity ->
  set_history_capacity new_capacity h = (resize_history new_capacity h, []) /\
  capacity (resize_history new_capacity h) = new_capacity /\
  start (resize_history new_capacity h) = 0 /\
  count (resize_history new_capacity h) = Z.min new_capacity (count h) /\
  recent (resize_history new_capacity h) =
    reverse (take (Z.to_nat (Z.min new_capacity (count h))) (recent h)) /\
  (new_capacity <= 1073741824 -> wf_history (resize_history new_capacity h)).
Proof.
  intros Hwf Hpos.
  split; [unfold set_history_capacity; destruct (new_capacity <=? 0) eqn:E;
          [lia | reflexivity]|].
  split; [reflexivity|]. split; [reflexivity|].
  split; [simpl; destruct (count h <? new_capacity) eqn:E; lia|].
  split; [apply resize_history_recent; assumption|].
  intros Hle. apply resize_history_wf; [exact Hwf | lia].
Qed.

Lemma X3_witness :
  wf_history three_lines /\ 0 < 2 /\
  set_history_capacity 2 three_lines = (resize_history 2 three_lines, []) /\
  capacity (resize_history 2 three_lines) = 2 /\
  start (resize_history 2 three_lines) = 0 /\
  count (resize_history 2 three_lines) = Z.min 2 (count three_lines) /\
  recent (resize_history 2 three_lines) =
    reverse (take (Z.to_nat (Z.min 2 (count three_lines))) (recent three_lines)) /\
  (2 <= 1073741824 -> wf_history (resize_history 2 three_lines)).
Proof.
  assert (H : 0 < 2) by lia.
  exact (conj three_lines_wf (conj H
    (X3_resize_keeps_most_recent 2 three_lines three_lines_wf H))).
Defined.

(** X4: resizing twice to the same capacity puts the kept entries back in
    their original order: the second reversal undoes the first. *)
Theorem X4_resize_twice_restores_order (new_capacity : Z) (h : History) :
  wf_history h ->
  0 < new_capacity <= 1073741824 ->
  recent (resize_history new_capacity (resize_history new_capacity h)) =
  take (Z.to_nat (Z.min new_capacity (count h))) (recent h).
Proof.
  intros Hwf Hcap. pose proof Hwf as (_ & _ & Hcount & _).
  rewrite resize_history_recent by (try apply resize_history_wf; solve [assumption | lia]).
  rewrite resize_history_recent by (solve [assumption | lia]).
  assert (Hc : count (resize_history new_capacity h) = Z.min new_capacity (count h)).
  { simpl. destruct (count h <? new_capacity) eqn:E; lia. }
  rewrite Hc. rewrite take_ge.
  - apply reverse_involutive.
  - rewrite length_reverse, length_take, length_recent. lia.
Qed.

Lemma X4_witness :
  wf_history three_lines /\ 0 < 2 <= 1073741824 /\
  recent (resize_history 2 (resize_history 2 three_lines)) =
  take (Z.to_nat (Z.min 2 (count three_lines))) (recent three_lines).
Proof.
  assert (H : 0 < 2 <= 1073741824) by lia.
  exact (conj three_lines_wf (conj H
    (X4_resize_twice_restores_order 2 three_lines three_lines_wf H))).
Defined.

(** ** Redirection resolver and child side *)

Lemma first_redirection_split (args : list string) :
  Forall (fun a => is_redirection_token a = false) args \/
  exists pre tok post,
    args = (pre ++ tok :: post)%list /\
    Forall (fun a => is_redirection_token a = false) pre /\
    is_redirection_token tok = true.
Proof.
  induction args as [|a args IH]; [left; constructor|].
  destruct (is_redirection_token a) eqn:Ea.
  - right. exists [], a, args. repeat split; [constructor | exact Ea].
  - destruct IH as [IH | (pre & tok & post & -> & Hpre & Htok)].
    + left. constructor; assumption.
    + right. exists (a :: pre), tok, post. repeat split; [constructor; assumption | exact Htok].
Qed.

Lemma token_redirection_shape tok :
  (input (token_redirection tok) = None \/ output (token_redirection tok) = None) /\
  (append (token_redirection tok) = true -> is_Some (output (token_redirection tok))) /\
  (redirect_stderr (token_redirection tok) = true ->
   is_Some (output (token_redirection tok)) /\ append (token_redirection tok) = false).
Proof.
  unfold token_redirection, parse_redirection. simpl.
  destruct (strncmp_eq tok ">>" 2); [simpl; repeat split; eauto; discriminate|].
  destruct (strncmp_eq tok ">" 1); [simpl; repeat split; eauto; discriminate|].
  destruct (strncmp_eq tok "<" 1); [simpl; repeat split; eauto; discriminate|].
  destruct (strncmp_eq tok "&>" 2) eqn:E; [simpl; repeat split; eauto; discriminate|].
  destruct (strncmp_eq tok "&>>" 3) eqn:E3.
  - apply strncmp_amp_append_is_amp in E3. congruence.
  - simpl. repeat split; eauto; discriminate.
Qed.

(** X5: what [parse_redirection] never does.  It never fails; the vector
    it leaves is a prefix of the one it was given and holds no redirection
    token, and it is the whole vector exactly when there was none; it never
    sets both an input and an output path; the append flag and the stderr
    flag come only with an output path, and never together. *)
Theorem X5_parse_redirection_shape :
  forall args : list string,
    pr_status (parse_redirection args) = 0 /\
    pr_args (parse_redirection args) `prefix_of` args /\
    Forall (fun a => is_redirection_token a = false) (pr_args (parse_redirection args)) /\
    (pr_args (parse_redirection args) = args <->
     Forall (fun a => is_redirection_token a = false) args) /\
    (input (pr_redir (parse_redirection args)) = None \/
     output (pr_redir (parse_redirection args)) = None) /\
    (append (pr_redir (parse_redirection args)) = true ->
     is_Some (output (pr_redir (parse_redirection args)))) /\
    (redirect_stderr (pr_redir (parse_redirection args)) = true ->
     is_Some (output (pr_redir (parse_redirection args))) /\
     append (pr_redir (parse_redirection args)) = false).
Proof.
  intros args.
  destruct (first_redirection_split args)
    as [Hnone | (pre & tok & post & -> & Hpre & Htok)].
  - rewrite parse_redirection_none by exact Hnone. simpl.
    split; [reflexivity|]. split; [reflexivity|]. split; [exact Hnone|].
    split; [tauto|]. split; [left; reflexivity|]. split; discriminate.
  - unfold parse_redirection.
    rewrite (parse_redirection_loop_cut pre tok post Hpre Htok). simpl.
    split; [reflexivity|]. split; [apply prefix_app_r; reflexivity|].
    split; [exact Hpre|]. split; [|apply token_redirection_shape].
    split.
    + intros H. apply (f_equal length) in H. rewrite length_app in H. simpl in H. lia.
    + intros H. apply Forall_app in H as [_ H]. apply Forall_cons in H as [H _]. congruence.
Qed.

(** X6: the four operators that are recognised.  In front of the first
    redirection token everything is kept; the token gives the path: [>>]
    an output path to append to, [<] an input path, [&>] an output path
    that also takes the standard error, and [>], followed by something that
    does not begin with another [>], an output path to truncate. *)
Theorem X6_operators (pre : list string) (path : string) (post : list string) :
  Forall (fun a => is_redirection_token a = false) pre ->
  parse_redirection (pre ++ (">>" ++ path)%string :: post)%list =
    {| pr_status := 0; pr_args := pre;
       pr_redir := {| input := None; output := Some path;
                      append := true; redirect_stderr := false |} |} /\
  parse_redirection (pre ++ ("<" ++ path)%string :: post)%list =
    {| pr_status := 0; pr_args := pre;
       pr_redir := {| input := Some path; output := None;
                      append := false; redirect_stderr := false |} |} /\
  parse_redirection (pre ++ ("&>" ++ path)%string :: post)%list =
    {| pr_status := 0; pr_args := pre;
       pr_redir := {| input := None; output := Some path;
                      append := false; redirect_stderr := true |} |} /\
  (strncmp_eq path ">" 1 = false ->
   parse_redirection (pre ++ (">" ++ path)%string :: post)%list =
     {| pr_status := 0; pr_args := pre;
        pr_redir := {| input := None; output := Some path;
                       append := false; redirect_stderr := false |} |}).
Proof.
  intros Hpre. unfold parse_redirection.
  split; [rewrite (parse_redirection_loop_cut pre _ post Hpre); reflexivity|].
  split; [rewrite (parse_redirection_loop_cut pre _ post Hpre); reflexivity|].
  split; [rewrite (parse_redirection_loop_cut pre _ post Hpre); reflexivity|].
  intros Hpath.
  rewrite (parse_redirection_loop_cut pre _ post Hpre) by reflexivity.
  unfold token_redirection, parse_redirection.
  assert (H2 : strncmp_eq (">" ++ path) ">>" 2 = false).
  { unfold strncmp_eq in *. destruct path as [|c path]; [reflexivity|].
    simpl in *. destruct (Ascii.eqb_spec c ">"); [subst; discriminate | reflexivity]. }
  simpl. simpl in H2. rewrite H2. reflexivity.
Qed.

Lemma X6_witness :
  Forall (fun a => is_redirection_token a = false) ["sort"] /\
  parse_redirection (["sort"] ++ (">>" ++ "out.txt")%string :: [])%list =
    {| pr_status := 0; pr_args := ["sort"];
       pr_redir := {| input := None; output := Some "out.txt";
                      append := true; redirect_stderr := false |} |} /\
  parse_redirection (["sort"] ++ ("<" ++ "out.txt")%string :: [])%list =
    {| pr_status := 0; pr_args := ["sort"];
       pr_redir := {| input := Some "out.txt"; output := None;
                      append := false; redirect_stderr := false |} |} /\
  parse_redirection (["sort"] ++ ("&>" ++ "out.txt")%string :: [])%list =
    {| pr_status := 0; pr_args := ["sort"];
       pr_redir := {| input := None; output := Some "out.txt";
                      append := false; redirect_stderr := true |} |} /\
  (strncmp_eq "out.txt" ">" 1 = false ->
   parse_redirection (["sort"] ++ (">" ++ "out.txt")%string :: [])%list =
     {| pr_status := 0; pr_args := ["sort"];
        pr_redir := {| input := None; output := Some "out.txt";
                       append := false; redirect_stderr := false |} |}).
Proof.
  assert (H : Forall (fun a => is_redirection_token a = false) ["sort"])
    by (repeat constructor).
  exact (conj H (X6_operators ["sort"] "out.txt" [] H)).
Defined.

Section ChildFacts.

Variable os : OS.

Lemma parse_redirection_stderr_has_output (args : list string) :
  redirect_stderr (pr_redir (parse_redirection args)) = true ->
  is_Some (output (pr_redir (parse_redirection args))).
Proof.
  destruct (first_redirection_split args)
    as [Hnone | (pre & tok & post & -> & Hpre & Htok)].
  - rewrite parse_redirection_none by exact Hnone. discriminate.
  - unfold parse_redirection.
    rewrite (parse_redirection_loop_cut pre tok post Hpre Htok). simpl.
    intros H. apply token_redirection_shape, H.
Qed.

(** X7: a redirection that cannot be set up stops the child before it
    runs anything.  When the descriptors cannot be duplicated, or the input
    file or the output file cannot be opened, [apply_redirection] returns
    -1 and the child exits with [EXIT_FAILURE], whatever the command. *)
Theorem X7_failed_redirection_stops_child
        (args : list string) (r : Redirection) (e : gmap string string)
        (tr : list Event) :
  os_dup os tr = false \/
  (exists path, input r = Some path /\ os_open os tr path ReadOnly = false) \/
  (exists path, output r = Some path /\
     os_open os tr path (if append r then WriteAppend else WriteTruncate) = false) ->
  fst (apply_redirection os r tr) = -1 /\
  launch_child os args r e tr = ExitedWith EXIT_FAILURE.
Proof.
  intros H.
  assert (Hst : fst (apply_redirection os r tr) = -1).
  { unfold apply_redirection.
    destruct (os_dup os tr) eqn:Ed; [|reflexivity]. simpl negb. cbv iota.
    destruct H as [H | [(path & Hin & Hop) | (path & Hout & Hop)]]; [discriminate | |].
    - rewrite Hin, Hop. reflexivity.
    - rewrite Hout, Hop. simpl.
      destruct (input r) as [p|]; [|reflexivity].
      destruct (os_open os tr p ReadOnly); [|reflexivity]. simpl.
      destruct (os_dup2 os tr 0); reflexivity. }
  split; [exact Hst|]. unfold launch_child.
  destruct (apply_redirection os r tr) as [status fds]. simpl in Hst. subst status.
  reflexivity.
Qed.

(** X8: the descriptors a child runs with after a successful
    [apply_redirection].  Standard input is the input path if there is one;
    standard output is the output path, opened for appending exactly when
    the append flag is set; standard error follows standard output when the
    stderr flag is set together with an output path, goes to [/dev/null]
    when the flag is set without one, and is inherited otherwise.  On what
    [parse_redirection] produces the [/dev/null] case does not occur. *)
Theorem X8_redirection_wiring (r : Redirection) (tr : list Event) (fds : Fds) :
  apply_redirection os r tr = (0, fds) ->
  fd_stdin fds = input r /\
  fd_stdout fds = (fun path => (path, append r)) <$> output r /\
  fd_stderr fds =
    (if redirect_stderr r
     then match output r with
          | Some _ => StderrToStdout
          | None => StderrToNull
          end
     else StderrInherited) /\
  (forall args, r = pr_redir (parse_redirection args) -> fd_stderr fds <> StderrToNull).
Proof.
  intros H.
  assert (Hw : fd_stdin fds = input r /\
               fd_stdout fds = (fun path => (path, append r)) <$> output r /\
               fd_stderr fds =
                 (if redirect_stderr r
                  then match output r with
                       | Some _ => StderrToStdout
                       | None => StderrToNull
                       end
                  else StderrInherited)).
  { unfold apply_redirection in H.
    destruct (os_dup os tr); simpl in H; [|discriminate].
    destruct (input r) as [pin|];
      [destruct (os_open os tr pin ReadOnly); simpl in H; [|discriminate];
       destruct (os_dup2 os tr 0); simpl in H; [|discriminate] |];
      (destruct (output r) as [pout|];
       [destruct (os_open os tr pout _); simpl in H; [|discriminate];
        destruct (os_dup2 os tr 1); simpl in H; [|discriminate] |]);
      destruct (redirect_stderr r); simpl in H;
      repeat match type of H with
             | (if negb ?b then _ else _) = _ => destruct b; simpl in H
             end;
      try discriminate; injection H as <-; repeat split. }
  destruct Hw as (H1 & H2 & H3). repeat split; try assumption.
  intros args -> Hnull. rewrite Hnull in H3.
  destruct (redirect_stderr (pr_redir (parse_redirection args))) eqn:Es; [|discriminate].
  destruct (parse_redirection_stderr_has_output args Es) as [p Hp].
  rewrite Hp in H3. discriminate.
Qed.

Lemma search_path_tokens fuel saved arg0 tr :
  search_path os fuel saved arg0 tr =
  List.find (os_access os tr)
    ((fun dir => str_take 1023 (dir ++ "/" ++ arg0)) <$> strtok_all fuel ":" saved).
Proof.
  revert saved. induction fuel as [|fuel IH]; intros saved; [reflexivity|].
  simpl. destruct (strtok ":" saved) as [[dir saved']|]; [|reflexivity].
  simpl. destruct (os_access os tr _); [reflexivity | apply IH].
Qed.

Lemma search_path_first_match (path_env arg0 : string) (tr : list Event) :
  search_path os (S (String.length path_env)) path_env arg0 tr =
  List.find (os_access os tr) (path_candidates path_env arg0).
Proof.
  rewrite search_path_tokens.
  unfold path_candidates. rewrite strtok_all_words by lia. reflexivity.
Qed.

(** X9: the search over [PATH].  The directories are the non-empty
    pieces between colons, tried from left to right; the result is the
    first candidate [dir/arg0] (cut to the 1023 characters of the buffer)
    that [access] accepts, and nothing when there is none. *)
Theorem X9_search_path_first_match :
  forall (path_env arg0 : string) (tr : list Event),
    search_path os (S (String.length path_env)) path_env arg0 tr =
      List.find (os_access os tr) (path_candidates path_env arg0) /\
    (forall c, head (path_candidates path_env arg0) = Some c ->
               os_access os tr c = true ->
               search_path os (S (String.length path_env)) path_env arg0 tr = Some c) /\
    (Forall (fun c => os_access os tr c = false) (path_candidates path_env arg0) ->
     search_path os (S (String.length path_env)) path_env arg0 tr = None).
Proof.
  intros path_env arg0 tr. split; [apply search_path_first_match|].
  split.
  - intros c Hc Hacc. rewrite search_path_first_match.
    destruct (path_candidates path_env arg0) as [|c' l]; [discriminate|].
    simpl in Hc. injection Hc as ->. simpl. rewrite Hacc. reflexivity.
  - intros Hall. rewrite search_path_first_match.
    destruct (List.find _ _) as [c|] eqn:E; [|reflexivity].
    apply List.find_some in E as [Hin Hacc].
    rewrite Forall_forall in Hall.
    rewrite (Hall c) in Hacc; [discriminate | apply list_elem_of_In, Hin].
Qed.

(** X10: how the child finds its program once the redirections are in
    place.  A command name with a slash is executed as it is, without a
    look at [PATH].  Otherwise the child exits with [EXIT_FAILURE] when
    [PATH] is not set or holds no directory with an executable of that
    name, and executes the first candidate found when there is one.  An
    [execv] that fails also ends the child with [EXIT_FAILURE]. *)
Theorem X10_command_resolution
        (arg0 : string) (rest : list string) (r : Redirection)
        (e : gmap string string) (tr : list Event) (fds : Fds) :
  apply_redirection os r tr = (0, fds) ->
  (has_char "/" arg0 = true ->
   launch_child os (arg0 :: rest) r e tr =
   default (ExitedWith EXIT_FAILURE) (os_execv os tr arg0 (arg0 :: rest) fds e)) /\
  (has_char "/" arg0 = false ->
   getenv "PATH" e = None ->
   launch_child os (arg0 :: rest) r e tr = ExitedWith EXIT_FAILURE) /\
  (has_char "/" arg0 = false ->
   forall path_env, getenv "PATH" e = Some path_env ->
   launch_child os (arg0 :: rest) r e tr =
   match List.find (os_access os tr) (path_candidates path_env arg0) with
   | None => ExitedWith EXIT_FAILURE
   | Some executable_path =>
       default (ExitedWith EXIT_FAILURE)
               (os_execv os tr executable_path (arg0 :: rest) fds e)
   end).
Proof.
  intros Hr. unfold launch_child. rewrite Hr.
  change (0 =? -1) with false. cbv iota.
  split; [intros ->; destruct (os_execv _ _ _ _ _ _); reflexivity|].
  split; [intros -> ->; reflexivity|].
  intros -> path_env ->.
  rewrite search_path_first_match.
  destruct (List.find _ _); [|reflexivity].
  destruct (os_execv _ _ _ _ _ _); reflexivity.
Qed.

End ChildFacts.

Lemma X7_witness :
  (os_dup (os_without_file "missing.txt") [] = false \/
   (exists path, input {| input := Some "missing.txt"; output := None;
                          append := false; redirect_stderr := false |} = Some path /\
                 os_open (os_without_file "missing.txt") [] path ReadOnly = false) \/
   (exists path, output {| input := Some "missing.txt"; output := None;
                           append := false; redirect_stderr := false |} = Some path /\
      os_open (os_without_file "missing.txt") [] path
              (if append {| input := Some "missing.txt"; output := None;
                            append := false; redirect_stderr := false |}
               then WriteAppend else WriteTruncate) = false)) /\
  fst (apply_redirection (os_without_file "missing.txt")
         {| input := Some "missing.txt"; output := None;
            append := false; redirect_stderr := false |} []) = -1 /\
  launch_child (os_without_file "missing.txt") ["cat"]
    {| input := Some "missing.txt"; output := None;
       append := false; redirect_stderr := false |} ∅ [] = ExitedWith EXIT_FAILURE.
Proof.
  assert (H : os_dup (os_without_file "missing.txt") [] = false \/
   (exists path, input {| input := Some "missing.txt"; output := None;
                          append := false; redirect_stderr := false |} = Some path /\
                 os_open (os_without_file "missing.txt") [] path ReadOnly = false) \/
   (exists path, output {| input := Some "missing.txt"; output := None;
                           append := false; redirect_stderr := false |} = Some path /\
      os_open (os_without_file "missing.txt") [] path
              (if append {| input := Some "missing.txt"; output := None;
                            append := false; redirect_stderr := false |}
               then WriteAppend else WriteTruncate) = false)).
  { right. left. exists "missing.txt". split; reflexivity. }
  exact (conj H (X7_failed_redirection_stops_child (os_without_file "missing.txt")
                   ["cat"] _ ∅ [] H)).
Defined.

Lemma X8_witness :
  apply_redirection sample_os (pr_redir (parse_redirection ["cmd"; "&>log"])) [] =
    (0, {| fd_stdin := None; fd_stdout := Some ("log", false);
           fd_stderr := StderrToStdout |}) /\
  fd_stdin {| fd_stdin := None; fd_stdout := Some ("log", false);
              fd_stderr := StderrToStdout |} =
    input (pr_redir (parse_redirection ["cmd"; "&>log"])) /\
  fd_stdout {| fd_stdin := None; fd_stdout := Some ("log", false);
               fd_stderr := StderrToStdout |} =
    (fun path => (path, append (pr_redir (parse_redirection ["cmd"; "&>log"]))))
      <$> output (pr_redir (parse_redirection ["cmd"; "&>log"])) /\
  fd_stderr {| fd_stdin := None; fd_stdout := Some ("log", false);
               fd_stderr := StderrToStdout |} =
    (if redirect_stderr (pr_redir (parse_redirection ["cmd"; "&>log"]))
     then match output (pr_redir (parse_redirection ["cmd"; "&>log"])) with
          | Some _ => StderrToStdout
          | None => StderrToNull
          end
     else StderrInherited) /\
  (forall args, pr_redir (parse_redirection ["cmd"; "&>log"]) =
                pr_redir (parse_redirection args) ->
                fd_stderr {| fd_stdin := None; fd_stdout := Some ("log", false);
                             fd_stderr := StderrToStdout |} <> StderrToNull).
Proof.
  assert (H : apply_redirection sample_os
                (pr_redir (parse_redirection ["cmd"; "&>log"])) [] =
              (0, {| fd_stdin := None; fd_stdout := Some ("log", false);
                     fd_stderr := StderrToStdout |})) by reflexivity.
  exact (conj H (X8_redirection_wiring sample_os _ [] _ H)).
Defined.

Lemma X10_witness :
  apply_redirection sample_os no_redirection [] = (0, inherited_fds) /\
  (has_char "/" "echo" = true ->
   launch_child sample_os ("echo" :: ["hi"]) no_redirection
                (env (initialize_shell ∅)) [] =
   default (ExitedWith EXIT_FAILURE)
           (os_execv sample_os [] "echo" ("echo" :: ["hi"]) inherited_fds
                     (env (initialize_shell ∅)))) /\
  (has_char "/" "echo" = false ->
   getenv "PATH" (env (initialize_shell ∅)) = None ->
   launch_child sample_os ("echo" :: ["hi"]) no_redirection
                (env (initialize_shell ∅)) [] = ExitedWith EXIT_FAILURE) /\
  (has_char "/" "echo" = false ->
   forall path_env, getenv "PATH" (env (initialize_shell ∅)) = Some path_env ->
   launch_child sample_os ("echo" :: ["hi"]) no_redirection
                (env (initialize_shell ∅)) [] =
   match List.find (os_access sample_os []) (path_candidates path_env "echo") with
   | None => ExitedWith EXIT_FAILURE
   | Some executable_path =>
       default (ExitedWith EXIT_FAILURE)
               (os_execv sample_os [] executable_path ("echo" :: ["hi"]) inherited_fds
                         (env (initialize_shell ∅)))
   end).
Proof.
  assert (H : apply_redirection sample_os no_redirection [] = (0, inherited_fds))
    by reflexivity.
  exact (conj H (X10_command_resolution sample_os "echo" ["hi"] no_redirection
                   (env (initialize_shell ∅)) [] inherited_fds H)).
Defined.

(** ** Environment and shell variables *)

Lemma split_at_char_absent c s :
  has_char c s = false -> split_at_char c s = None.
Proof.
  induction s as [|d s IH]; [reflexivity|]. simpl.
  destruct (Ascii.eqb d c); [discriminate|]. intros H. rewrite (IH H). reflexivity.
Qed.

Lemma strcmp_eq_false s t : s <> t -> strcmp_eq s t = false.
Proof. intros H. unfold strcmp_eq. apply String.eqb_neq, H. Qed.

(** X11: [export NAME=VALUE] with a non-empty name.  The environment maps
    NAME to VALUE exactly as written (the text after the first ['='] is not
    substituted), [getenv] answers as before for every other name without
    ['='], and from then on
    [$NAME] stands for VALUE whatever the variable store holds.  The
    variable store, the history and the trace stay as they are. *)
Theorem X11_export_sets_environment
        (var val : string) (rest : list string) (st : Shell) :
  var <> EmptyString ->
  has_char "=" var = false ->
  exists st',
    wsh_export ("export" :: (var ++ "=" ++ val) :: rest) st = Returned 1 st' /\
    getenv var (env st') = Some val /\
    (forall other,
        other <> var ->
        has_char "=" other = false ->
        getenv other (env st') = getenv other (env st)) /\
    handle_variable_substitution (String "$" var) st' = val /\
    var_head st' = var_head st /\
    history st' = history st /\
    trace st' = trace st.
Proof.
  intros Hne Heq. unfold wsh_export.
  change (arg 1 ("export" :: (var ++ "=" ++ val) :: rest)) with (Some (var ++ "=" ++ val)).
  cbv iota. change (var ++ "=" ++ val) with (var ++ String "=" val).
  rewrite (split_at_char_first "=" var val Heq).
  unfold setenv. rewrite (strcmp_eq_false var EmptyString Hne), Heq. simpl orb. cbv iota.
  eexists. split; [reflexivity|]. simpl env.
  assert (Hget : getenv var (<[var := val]> (env st)) = Some val)
    by (rewrite getenv_plain by assumption; apply lookup_insert_eq).
  split; [exact Hget|].
  split.
  { intros other Ho Hoe. destruct (String.eqb_spec other EmptyString) as [->|Hoz];
      [reflexivity|].
    rewrite !getenv_plain by assumption. apply lookup_insert_ne. congruence. }
  split; [|repeat split].
  rewrite substitution_resolves. unfold resolve. simpl env. rewrite Hget. reflexivity.
Qed.

Lemma X11_witness :
  "Y" <> EmptyString /\
  has_char "=" "Y" = false /\
  exists st',
    wsh_export ("export" :: ("Y" ++ "=" ++ "$X") :: []) (initialize_shell ∅) =
      Returned 1 st' /\
    getenv "Y" (env st') = Some "$X" /\
    (forall other,
        other <> "Y" ->
        has_char "=" other = false ->
        getenv other (env st') = getenv other (env (initialize_shell ∅))) /\
    handle_variable_substitution (String "$" "Y") st' = "$X" /\
    var_head st' = var_head (initialize_shell ∅) /\
    history st' = history (initialize_shell ∅) /\
    trace st' = trace (initialize_shell ∅).
Proof.
  assert (H1 : "Y" <> EmptyString) by discriminate.
  assert (H2 : has_char "=" "Y" = false) by reflexivity.
  exact (conj H1 (conj H2
    (X11_export_sets_environment "Y" "$X" [] (initialize_shell ∅) H1 H2))).
Defined.

(** X12: [export] and [local] with a malformed argument change nothing.
    Without an argument, with an argument that has no ['='], and for
    [export] also with an argument that begins with ['='], the built-in
    returns 1 and the only effect is one diagnostic on the trace. *)
Theorem X12_malformed_assignment_changes_nothing (args : list string) (st : Shell) :
  arg 1 args = None \/ (exists a, arg 1 args = Some a /\ has_char "=" a = false) ->
  (exists diag, wsh_export args st = Returned 1 (emit [diag] st)) /\
  (exists diag, wsh_local_cmd args st = Returned 1 (emit [diag] st)) /\
  (forall val rest,
      exists diag,
        wsh_export ("export" :: String "=" val :: rest) st = Returned 1 (emit [diag] st)).
Proof.
  intros H. split; [|split].
  - unfold wsh_export. destruct H as [-> | (a & -> & Ha)]; [eexists; reflexivity|].
    rewrite (split_at_char_absent "=" a Ha). eexists; reflexivity.
  - unfold wsh_local_cmd. destruct H as [-> | (a & -> & Ha)]; [eexists; reflexivity|].
    rewrite (split_at_char_absent "=" a Ha). eexists; reflexivity.
  - intros val rest. eexists. reflexivity.
Qed.

Lemma X12_witness :
  (arg 1 ["local"; "X"] = None \/
   (exists a, arg 1 ["local"; "X"] = Some a /\ has_char "=" a = false)) /\
  (exists diag, wsh_export ["local"; "X"] (initialize_shell ∅) =
                Returned 1 (emit [diag] (initialize_shell ∅))) /\
  (exists diag, wsh_local_cmd ["local"; "X"] (initialize_shell ∅) =
                Returned 1 (emit [diag] (initialize_shell ∅))) /\
  (forall val rest,
      exists diag,
        wsh_export ("export" :: String "=" val :: rest) (initialize_shell ∅) =
        Returned 1 (emit [diag] (initialize_shell ∅))).
Proof.
  assert (H : arg 1 ["local"; "X"] = None \/
              (exists a, arg 1 ["local"; "X"] = Some a /\ has_char "=" a = false)).
  { right. exists "X". split; reflexivity. }
  exact (conj H (X12_malformed_assignment_changes_nothing ["local"; "X"]
                   (initialize_shell ∅) H)).
Defined.

Lemma var_update_other var v other l l' :
  var_update var v l = Some l' ->
  other <> var ->
  var_lookup other l' = var_lookup other l /\ length l' = length l.
Proof.
  revert l'. induction l as [|n l IH]; intros l' H Ho; simpl in H; [discriminate|].
  unfold strcmp_eq in H. destruct (String.eqb_spec (name n) var) as [Heq|Hne].
  - injection H as <-. simpl. unfold strcmp_eq.
    destruct (String.eqb_spec (name n) other); [congruence | split; reflexivity].
  - destruct (var_update var v l) as [rest|]; [|discriminate].
    injection H as <-. destruct (IH rest eq_refl Ho) as [Hl Hlen].
    simpl. rewrite Hl, Hlen. split; reflexivity.
Qed.

Lemma var_append_other var v other l :
  other <> var ->
  var_lookup other (var_append {| name := var; value := v |} l) = var_lookup other l /\
  length (var_append {| name := var; value := v |} l) = S (length l).
Proof.
  intros Ho. induction l as [|n l [IHl IHn]]; simpl.
  - unfold strcmp_eq. destruct (String.eqb_spec var other); [congruence | split; reflexivity].
  - rewrite IHl, IHn. split; reflexivity.
Qed.

(** X13: [local NAME=VALUE] touches one variable only.  Every other name
    keeps the value it had, the store grows by one node exactly when NAME
    is new, and the environment, the history and the trace stay as they
    are. *)
Theorem X13_local_touches_one_variable
        (var val : string) (rest : list string) (st : Shell) :
  has_char "=" var = false ->
  exists st',
    wsh_local_cmd ("local" :: (var ++ "=" ++ val) :: rest) st = Returned 1 st' /\
    (forall other, other <> var ->
       var_lookup other (var_head st') = var_lookup other (var_head st)) /\
    length (var_head st') =
      (if bool_decide (var ∈ var_names (var_head st))
       then length (var_head st) else S (length (var_head st))) /\
    env st' = env st /\
    history st' = history st /\
    trace st' = trace st.
Proof.
  intros Heq. unfold wsh_local_cmd.
  change (arg 1 ("local" :: (var ++ "=" ++ val) :: rest)) with (Some (var ++ "=" ++ val)).
  cbv iota. change (var ++ "=" ++ val) with (var ++ String "=" val).
  rewrite (split_at_char_first "=" var val Heq).
  set (pv := handle_variable_substitution val st).
  destruct (var_update var pv (var_head st)) as [updated|] eqn:E.
  - eexists. split; [reflexivity|]. simpl.
    destruct (var_update_some _ _ _ _ E) as (_ & Hin & _).
    rewrite bool_decide_eq_true_2 by exact Hin.
    split; [intros other Ho; apply (var_update_other _ _ _ _ _ E Ho)|].
    split; [|repeat split].
    apply (var_update_other var pv (String "x" var) _ _ E).
    intros H. apply (f_equal String.length) in H. simpl in H. lia.
  - eexists. split; [reflexivity|]. simpl.
    apply var_update_none in E. rewrite bool_decide_eq_false_2 by exact E.
    split; [intros other Ho; apply var_append_other, Ho|].
    split; [|repeat split].
    apply (var_append_other var pv (String "x" var)).
    intros H. apply (f_equal String.length) in H. simpl in H. lia.
Qed.

Lemma X13_witness :
  has_char "=" "X" = false /\
  exists st',
    wsh_local_cmd ("local" :: ("X" ++ "=" ++ "5") :: []) (initialize_shell ∅) =
      Returned 1 st' /\
    (forall other, other <> "X" ->
       var_lookup other (var_head st') =
       var_lookup other (var_head (initialize_shell ∅))) /\
    length (var_head st') =
      (if bool_decide ("X" ∈ var_names (var_head (initialize_shell ∅)))
       then length (var_head (initialize_shell ∅))
       else S (length (var_head (initialize_shell ∅)))) /\
    env st' = env (initialize_shell ∅) /\
    history st' = history (initialize_shell ∅) /\
    trace st' = trace (initialize_shell ∅).
Proof.
  assert (H : has_char "=" "X" = false) by reflexivity.
  exact (conj H (X13_local_touches_one_variable "X" "5" [] (initialize_shell ∅) H)).
Defined.

(** ** Tokenisation *)

Lemma split_pieces_clean delim s :
  Forall (fun p => forall c, has_char c p = true -> has_char c delim = false)
         (split_pieces delim s).
Proof.
  induction s as [|d s IH]; simpl.
  - constructor; [intros c H; discriminate | constructor].
  - destruct (has_char d delim) eqn:Ed.
    + constructor; [intros c H; discriminate | exact IH].
    + destruct (split_pieces delim s) as [|p ps]; [repeat constructor|].
      * intros c H. simpl in H. destruct (Ascii.eqb_spec d c); [subst; exact Ed | discriminate].
      * apply Forall_cons in IH as [Hp Hps]. constructor; [|exact Hps].
        intros c H. simpl in H.
        destruct (Ascii.eqb_spec d c); [subst; exact Ed | exact (Hp c H)].
Qed.

Lemma words_of_tokens delim s : Forall (is_token delim) (words_of delim s).
Proof.
  unfold words_of. apply Forall_forall. intros t Ht.
  apply list_elem_of_filter in Ht as [Hne Hin]. split.
  - intros ->. discriminate.
  - pose proof (split_pieces_clean delim s) as H. rewrite Forall_forall in H.
    exact (H t Hin).
Qed.

Lemma split_pieces_cons delim s : exists p ps, split_pieces delim s = p :: ps.
Proof.
  induction s as [|d s (p & ps & IH)]; simpl; [eauto|].
  destruct (has_char d delim); [eauto|]. rewrite IH. eauto.
Qed.

Lemma split_pieces_app_token delim t s :
  (forall c, has_char c t = true -> has_char c delim = false) ->
  split_pieces delim (t ++ s) =
  match split_pieces delim s with
  | p :: ps => (t ++ p) :: ps
  | [] => [t]
  end.
Proof.
  intros Ht. induction t as [|d t IH].
  - change (EmptyString ++ s) with s.
    destruct (split_pieces_cons delim s) as (p & ps & ->). reflexivity.
  - change (String d t ++ s) with (String d (t ++ s)). simpl.
    assert (Hd : has_char d delim = false).
    { apply Ht. simpl. rewrite Ascii.eqb_refl. reflexivity. }
    rewrite Hd, IH.
    + destruct (split_pieces delim s); reflexivity.
    + intros c Hc. apply Ht. simpl. destruct (Ascii.eqb d c); [reflexivity | exact Hc].
Qed.

Lemma string_app_empty (t : string) : t ++ EmptyString = t.
Proof.
  induction t as [|c t IH]; [reflexivity|].
  change (String c t ++ EmptyString) with (String c (t ++ EmptyString)).
  rewrite IH. reflexivity.
Qed.

Lemma words_of_token delim t : is_token delim t -> words_of delim t = [t].
Proof.
  intros [Hne Ht]. unfold words_of.
  rewrite <- (string_app_empty t) at 1. rewrite split_pieces_app_token by exact Ht.
  simpl. rewrite string_app_empty.
  rewrite filter_cons_True by (destruct t; [contradiction | reflexivity]).
  reflexivity.
Qed.

Lemma words_of_token_delim delim t d s :
  is_token delim t ->
  has_char d delim = true ->
  words_of delim (t ++ String d s) = t :: words_of delim s.
Proof.
  intros [Hne Ht] Hd. unfold words_of.
  rewrite split_pieces_app_token by exact Ht. simpl. rewrite Hd.
  rewrite string_app_empty.
  rewrite filter_cons_True by (destruct t; [contradiction | reflexivity]).
  reflexivity.
Qed.

Lemma words_of_join_args delim (ts : list string) :
  has_char " " delim = true ->
  Forall (is_token delim) ts ->
  words_of delim (join_args ts) = ts.
Proof.
  intros Hsp H. induction H as [|t ts Ht Hts IH]; [reflexivity|].
  destruct ts as [|u ts].
  - simpl. apply words_of_token, Ht.
  - change (join_args (t :: u :: ts)) with (t ++ String " " (join_args (u :: ts))).
    rewrite words_of_token_delim by assumption. rewrite IH. reflexivity.
Qed.

Lemma words_of_only_delims delim s :
  (forall c, has_char c s = true -> has_char c delim = true) ->
  words_of delim s = [].
Proof.
  unfold words_of. induction s as [|d s IH]; intros H; [reflexivity|].
  simpl. rewrite (H d) by (simpl; rewrite Ascii.eqb_refl; reflexivity).
  rewrite filter_cons_False by (simpl; discriminate).
  apply IH. intros c Hc. apply H. simpl. destruct (Ascii.eqb d c); [reflexivity | exact Hc].
Qed.

(** X14: the tokens of a line.  Every token is non-empty and holds no
    delimiter; a line made of delimiters only has no token, so that
    [parse_line] gives the empty vector for it; the vector [parse_line]
    builds does not depend on the history or the trace. *)
Theorem X14_tokens_are_clean :
  forall (line : string) (st : Shell),
    Forall (is_token DELIMITERS) (tokenize line) /\
    ((forall c, has_char c line = true -> has_char c DELIMITERS = true) ->
     tokenize line = [] /\ parse_line line st = []) /\
    (forall h evs, parse_line line (emit evs (set_history h st)) = parse_line line st).
Proof.
  intros line st.
  assert (Ht : tokenize line = words_of DELIMITERS line)
    by (apply strtok_all_words; lia).
  split; [rewrite Ht; apply words_of_tokens|]. split.
  - intros H. assert (Hnil : tokenize line = [])
      by (rewrite Ht; apply words_of_only_delims, H).
    split; [exact Hnil|].
    unfold parse_line. rewrite parse_line_loop_tokens.
    change (strtok_all (S (String.length line)) DELIMITERS line) with (tokenize line).
    rewrite Hnil. reflexivity.
  - intros h evs. unfold parse_line. rewrite !parse_line_loop_tokens. reflexivity.
Qed.

(** X15: rejoining and tokenising again.  A list of tokens joined with
    single spaces, as [execute_command] does for the history, is split
    back into the same tokens; so the tokens of a line are those of its
    rejoined form. *)
Theorem X15_rejoin_then_tokenize (ts : list string) :
  Forall (is_token DELIMITERS) ts ->
  tokenize (join_args ts) = ts /\
  (forall line, ts = tokenize line -> tokenize (join_args (tokenize line)) = tokenize line).
Proof.
  intros H.
  assert (Hts : tokenize (join_args ts) = ts).
  { unfold tokenize. rewrite strtok_all_words by lia.
    apply words_of_join_args; [reflexivity | exact H]. }
  split; [exact Hts|]. intros line <-. exact Hts.
Qed.

Lemma X15_witness :
  Forall (is_token DELIMITERS) ["echo"; "hi"] /\
  tokenize (join_args ["echo"; "hi"]) = ["echo"; "hi"] /\
  (forall line, ["echo"; "hi"] = tokenize line ->
                tokenize (join_args (tokenize line)) = tokenize line).
Proof.
  assert (H : Forall (is_token DELIMITERS) ["echo"; "hi"]).
  { pose proof (words_of_tokens DELIMITERS "echo hi") as Hw. exact Hw. }
  exact (conj H (X15_rejoin_then_tokenize ["echo"; "hi"] H)).
Defined.

(** ** The read-eval loop *)

Lemma skip_blanks_app blanks s :
  all_blank blanks = true -> skip_blanks (blanks ++ s) = skip_blanks s.
Proof.
  induction blanks as [|c blanks IH]; [reflexivity|].
  change (String c blanks ++ s) with (String c (blanks ++ s)). simpl.
  destruct (Ascii.eqb c " " || Ascii.eqb c (ascii_of_nat 9)); [|discriminate].
  exact IH.
Qed.

Lemma skip_blanks_all blanks : all_blank blanks = true -> skip_blanks blanks = EmptyString.
Proof.
  intros H. rewrite <- (string_app_empty blanks). rewrite skip_blanks_app by exact H.
  reflexivity.
Qed.

Lemma strip_newline_app text : strip_newline (text ++ nl) = text.
Proof.
  induction text as [|c text IH]; [reflexivity|].
  change (String c text ++ nl) with (String c (text ++ nl)).
  simpl. rewrite IH. destruct text; reflexivity.
Qed.

Section LoopFacts.

Variable os : OS.

(** X16: the lines [main] passes over.  A line that holds only spaces and
    tabs, or whose first other character is ['#'] or a newline, is dropped
    with nothing recorded, nothing printed and nothing executed, whatever
    follows on it. *)
Theorem X16_comments_and_blank_lines (fuel : nat) (blanks rest : string) (st : Shell) :
  all_blank blanks = true ->
  main_step os fuel blanks st = Returned 1 st /\
  main_step os fuel (blanks ++ String "#" rest) st = Returned 1 st /\
  main_step os fuel (blanks ++ String (ascii_of_nat 10) rest) st = Returned 1 st.
Proof.
  intros H. unfold main_step.
  rewrite skip_blanks_all, !skip_blanks_app by exact H.
  repeat split.
Qed.

(** X17: what becomes of an ordinary line.  For a line made of leading
    spaces and tabs, a text that begins with neither a blank, ['#'] nor a
    newline, and the final newline, [main] hands to [add_history] the text
    alone, inner and trailing blanks included, and then executes the tokens
    of the text. *)
Theorem X17_ordinary_line (fuel : nat) (blanks : string) (c : ascii) (text : string)
        (st : Shell) :
  all_blank blanks = true ->
  all_blank (String c EmptyString) = false ->
  is_comment_or_blank (String c text) = false ->
  strip_newline (skip_blanks (blanks ++ String c text ++ nl)) = String c text /\
  main_step os fuel (blanks ++ String c text ++ nl) st =
  execute_command os fuel
    (parse_line (String c text ++ nl) st)
    (set_history (add_history (String c text) (history st)) st).
Proof.
  intros Hb Hc Hskip.
  assert (Hs : skip_blanks (String c text ++ nl) = String c text ++ nl).
  { simpl in Hc |- *. rewrite andb_true_r in Hc. rewrite Hc. reflexivity. }
  split.
  - rewrite skip_blanks_app, Hs by exact Hb. apply strip_newline_app.
  - unfold main_step. cbv zeta. rewrite skip_blanks_app, Hs by exact Hb.
    change (String c text ++ nl) with (String c (text ++ nl)). cbv iota.
    simpl in Hskip. rewrite Hskip.
    change (String c (text ++ nl)) with (String c text ++ nl).
    rewrite strip_newline_app, parse_line_set_history. reflexivity.
Qed.

End LoopFacts.

Lemma X16_witness :
  all_blank "  " = true /\
  main_step sample_os 1 "  " (initialize_shell ∅) = Returned 1 (initialize_shell ∅) /\
  main_step sample_os 1 ("  " ++ String "#" " note") (initialize_shell ∅) =
    Returned 1 (initialize_shell ∅) /\
  main_step sample_os 1 ("  " ++ String (ascii_of_nat 10) EmptyString)
            (initialize_shell ∅) = Returned 1 (initialize_shell ∅).
Proof.
  assert (H : all_blank "  " = true) by reflexivity.
  exact (conj H (X16_comments_and_blank_lines sample_os 1 "  " " note"
                   (initialize_shell ∅) H)).
Defined.

Lemma X17_witness :
  all_blank " " = true /\
  all_blank (String "e" EmptyString) = false /\
  is_comment_or_blank (String "e" "cho  hi ") = false /\
  strip_newline (skip_blanks (" " ++ String "e" "cho  hi " ++ nl)) =
    String "e" "cho  hi " /\
  main_step sample_os 1 (" " ++ String "e" "cho  hi " ++ nl) (initialize_shell ∅) =
  execute_command sample_os 1
    (parse_line (String "e" "cho  hi " ++ nl) (initialize_shell ∅))
    (set_history (add_history (String "e" "cho  hi ") (history (initialize_shell ∅)))
                 (initialize_shell ∅)).
Proof.
  assert (H1 : all_blank " " = true) by reflexivity.
  assert (H2 : all_blank (String "e" EmptyString) = false) by reflexivity.
  assert (H3 : is_comment_or_blank (String "e" "cho  hi ") = false) by reflexivity.
  exact (conj H1 (conj H2 (conj H3
    (X17_ordinary_line sample_os 1 " " "e" "cho  hi " (initialize_shell ∅) H1 H2 H3)))).
Defined.

(** ** Execution engine *)

Lemma emit_nil st : emit [] st = st.
Proof. destruct st. unfold emit. simpl. rewrite app_nil_r. reflexivity. Qed.

Lemma is_replay_needs_history arg0 rest :
  is_builtin arg0 = false -> is_replay (arg0 :: rest) = false.
Proof.
  intros Hb. destruct rest as [|a1 rest]; [reflexivity|]. cbn [is_replay].
  unfold is_builtin, builtin_str in Hb. cbn [existsb] in Hb.
  do 5 (apply orb_false_elim in Hb as [_ Hb]).
  apply orb_false_elim in Hb as [-> _]. reflexivity.
Qed.

Section EngineMore.

Variable os : OS.

Lemma execute_command_external fuel arg0 rest st :
  is_builtin arg0 = false ->
  execute_command os (S fuel) (arg0 :: rest) st =
  Returned 1
    (snd (launch_process os (arg0 :: rest)
            (set_history (add_history (join_args (arg0 :: rest)) (history st)) st))).
Proof.
  intros Hb. rewrite execute_command_step.
  rewrite (is_replay_needs_history arg0 rest Hb), (find_builtin_none os _ _ Hb).
  cbv zeta.
  destruct (launch_process_returns os (arg0 :: rest)
              (set_history (add_history (join_args (arg0 :: rest)) (history st)) st))
    as (st' & -> & _). reflexivity.
Qed.

(** X18: [history set] reached through [execute_command].  It is never
    taken for a replay.  With an argument that [atoi] reads as positive the
    ring is resized and nothing is printed; with any other argument, or
    without one, the state is left as it is apart from one diagnostic. *)
Theorem X18_history_set :
  forall (fuel : nat) (a2 : string) (rest : list string) (st : Shell),
    (0 < atoi a2 ->
     execute_command os (S fuel) ("history" :: "set" :: a2 :: rest) st =
     Returned 1 (set_history (resize_history (atoi a2) (history st)) st)) /\
    (atoi a2 <= 0 ->
     execute_command os (S fuel) ("history" :: "set" :: a2 :: rest) st =
     Returned 1
       (emit [Stderr ("wsh: history set requires a positive integer" ++ nl)] st)) /\
    execute_command os (S fuel) ["history"; "set"] st =
    Returned 1 (emit [Stderr ("wsh: history set requires a number" ++ nl)] st).
Proof.
  intros fuel a2 rest st.
  assert (Hstep : execute_command os (S fuel) ("history" :: "set" :: a2 :: rest) st =
                  wsh_history_cmd (execute_command os fuel)
                                  ("history" :: "set" :: a2 :: rest) st).
  { rewrite execute_command_step. reflexivity. }
  split; [|split; [|reflexivity]].
  - intros Hpos. rewrite Hstep. unfold wsh_history_cmd.
    change (arg 1 ("history" :: "set" :: a2 :: rest)) with (Some "set").
    change (arg 2 ("history" :: "set" :: a2 :: rest)) with (Some a2).
    cbv iota. change (strcmp_eq "set" "set") with true. cbv iota.
    unfold set_history_capacity.
    destruct (atoi a2 <=? 0) eqn:E; [lia|].
    change (map Stderr []) with (@nil Event). rewrite emit_nil. reflexivity.
  - intros Hneg. rewrite Hstep. unfold wsh_history_cmd.
    change (arg 1 ("history" :: "set" :: a2 :: rest)) with (Some "set").
    change (arg 2 ("history" :: "set" :: a2 :: rest)) with (Some a2).
    cbv iota. change (strcmp_eq "set" "set") with true. cbv iota.
    destruct (atoi a2 <=? 0) eqn:E; [reflexivity | lia].
Qed.

(** X19: replaying an entry that is neither a replay itself nor [exit].
    The call [history k] for an index in range returns 1 after executing
    the tokens of the entry once; when the entry is an external command,
    its rejoined tokens are recorded on the way and nothing else of the
    state changes but the trace. *)
Theorem X19_replay_runs_entry
        (fuel : nat) (a1 command : string) (st : Shell) :
  wf_history (history st) ->
  1 <= atoi a1 <= count (history st) ->
  recent (history st) !! Z.to_nat (atoi a1 - 1) = Some (Some command) ->
  is_replay (parse_line command st) = false ->
  head (parse_line command st) <> Some "exit" ->
  (exists st', execute_command os (S (S fuel)) ["history"; a1] st = Returned 1 st') /\
  (forall arg0 rest,
      parse_line command st = arg0 :: rest ->
      is_builtin arg0 = false ->
      exists evs,
        execute_command os (S (S fuel)) ["history"; a1] st =
        Returned 1
          (emit evs
             (set_history (add_history (join_args (arg0 :: rest)) (history st)) st))).
Proof.
  intros Hwf Hk Hentry Hreplay Hexit.
  assert (Hstep : execute_command os (S (S fuel)) ["history"; a1] st =
                  execute_history_command (execute_command os (S fuel)) (atoi a1) st).
  { rewrite execute_command_step.
    assert (is_replay ["history"; a1] = true) as ->; [|reflexivity].
    cbn [is_replay]. change (strcmp_eq "history" "history") with true.
    simpl andb. apply Z.ltb_lt. lia. }
  destruct (execute_history_command_in_range
              (execute_command os (S fuel)) (atoi a1) st Hwf Hk)
    as (command' & Hslot & Hrun).
  rewrite recent_lookup_lt in Hentry by lia.
  replace (Z.of_nat (Z.to_nat (atoi a1 - 1))) with (atoi a1 - 1) in Hentry by lia.
  assert (command' = command) by congruence. subst command'.
  rewrite Hstep, Hrun. split.
  - destruct (parse_line command st) as [|arg0 rest] eqn:Ep; [eexists; reflexivity|].
    destruct (execute_command_returns os fuel (arg0 :: rest) st) as [st' ->];
      [discriminate | exact Hexit | exact Hreplay |].
    eexists; reflexivity.
  - intros arg0 rest Ep Hb. rewrite Ep.
    rewrite (execute_command_external fuel arg0 rest st Hb). simpl drop_status.
    unfold launch_process. destruct (negb (os_fork os _)); eexists; reflexivity.
Qed.

(** X20: [cd], [vars] and [ls] leave the environment, the variable store
    and the history alone: all they do is add to the trace.  In
    particular [cd] sets no variable. *)
Theorem X20_builtins_without_state (fuel : nat) (arg0 : string) (rest : list string)
        (st : Shell) :
  arg0 = "cd" \/ arg0 = "vars" \/ arg0 = "ls" ->
  exists evs, execute_command os (S fuel) (arg0 :: rest) st = Returned 1 (emit evs st).
Proof.
  intros [-> | [-> | ->]]; rewrite execute_command_step;
    (assert (Hr : forall name, name <> "history" -> is_replay (name :: rest) = false);
     [intros name Hn; destruct rest as [|a1 rest']; [reflexivity|];
      cbn [is_replay]; rewrite (strcmp_eq_false name "history" Hn); reflexivity|]).
  - rewrite Hr by discriminate.
    change (find_builtin "cd" builtin_str (builtin_func os (execute_command os fuel)))
      with (Some (wsh_cd os)).
    cbv iota. unfold wsh_cd. destruct (arg 1 ("cd" :: rest)); [|eexists; reflexivity].
    destruct (os_chdir os (trace st) s); eexists; reflexivity.
  - rewrite Hr by discriminate. eexists. reflexivity.
  - rewrite Hr by discriminate.
    change (find_builtin "ls" builtin_str (builtin_func os (execute_command os fuel)))
      with (Some (wsh_ls os)).
    cbv iota. unfold wsh_ls, wait_child.
    destruct (negb (os_fork os (trace st))); eexists; reflexivity.
Qed.

(** X21: an external command.  For a command name that is no built-in,
    [execute_command] records the rejoined vector in the history, also when
    no child can be created, and returns 1; the environment and the
    variable store are untouched.  The trace receives the failure of
    [fork], or else the status of the child that [launch_child] describes
    for the vector cut at its first redirection token. *)
Theorem X21_external_command (fuel : nat) (arg0 : string) (rest : list string)
        (st : Shell) :
  is_builtin arg0 = false ->
  exists evs,
    execute_command os (S fuel) (arg0 :: rest) st =
      Returned 1
        (emit evs
           (set_history (add_history (join_args (arg0 :: rest)) (history st)) st)) /\
    (os_fork os (trace st) = false -> evs = [Perror "wsh"]) /\
    (os_fork os (trace st) = true ->
     head evs =
     Some (Forked (launch_child os
                     (pr_args (parse_redirection (arg0 :: rest)))
                     (pr_redir (parse_redirection (arg0 :: rest)))
                     (env st) (trace st)))).
Proof.
  intros Hb. rewrite (execute_command_external fuel arg0 rest st Hb).
  unfold launch_process. simpl trace. simpl env.
  destruct (os_fork os (trace st)); simpl negb; cbv iota.
  - eexists. split; [reflexivity|]. split; [discriminate | reflexivity].
  - eexists. split; [reflexivity|]. split; [reflexivity | discriminate].
Qed.

End EngineMore.

Lemma X19_witness :
  wf_history (history sample_shell) /\
  1 <= atoi "2" <= count (history sample_shell) /\
  recent (history sample_shell) !! Z.to_nat (atoi "2" - 1) = Some (Some "b") /\
  is_replay (parse_line "b" sample_shell) = false /\
  head (parse_line "b" sample_shell) <> Some "exit" /\
  (exists st', execute_command sample_os 2 ["history"; "2"] sample_shell = Returned 1 st') /\
  (forall arg0 rest,
      parse_line "b" sample_shell = arg0 :: rest ->
      is_builtin arg0 = false ->
      exists evs,
        execute_command sample_os 2 ["history"; "2"] sample_shell =
        Returned 1
          (emit evs
             (set_history (add_history (join_args (arg0 :: rest)) (history sample_shell))
                          sample_shell))).
Proof.
  assert (H1 : wf_history (history sample_shell)) by exact three_lines_wf.
  assert (H2 : 1 <= atoi "2" <= count (history sample_shell)) by (vm_compute; split; discriminate).
  assert (H3 : recent (history sample_shell) !! Z.to_nat (atoi "2" - 1) = Some (Some "b"))
    by reflexivity.
  assert (H4 : is_replay (parse_line "b" sample_shell) = false) by reflexivity.
  assert (H5 : head (parse_line "b" sample_shell) <> Some "exit") by discriminate.
  exact (conj H1 (conj H2 (conj H3 (conj H4 (conj H5
    (X19_replay_runs_entry sample_os 0 "2" "b" sample_shell H1 H2 H3 H4 H5)))))).
Defined.

Lemma X20_witness :
  ("cd" = "cd" \/ "cd" = "vars" \/ "cd" = "ls") /\
  exists evs,
    execute_command sample_os 1 ("cd" :: ["/tmp"]) (initialize_shell ∅) =
    Returned 1 (emit evs (initialize_shell ∅)).
Proof.
  assert (H : "cd" = "cd" \/ "cd" = "vars" \/ "cd" = "ls") by (left; reflexivity).
  exact (conj H (X20_builtins_without_state sample_os 0 "cd" ["/tmp"]
                   (initialize_shell ∅) H)).
Defined.

Lemma X21_witness :
  is_builtin "echo" = false /\
  exists evs,
    execute_command sample_os 1 ("echo" :: ["hi"]) (initialize_shell ∅) =
      Returned 1
        (emit evs
           (set_history (add_history (join_args ("echo" :: ["hi"]))
                                     (history (initialize_shell ∅)))
                        (initialize_shell ∅))) /\
    (os_fork sample_os (trace (initialize_shell ∅)) = false -> evs = [Perror "wsh"]) /\
    (os_fork sample_os (trace (initialize_shell ∅)) = true ->
     head evs =
     Some (Forked (launch_child sample_os
                     (pr_args (parse_redirection ("echo" :: ["hi"])))
                     (pr_redir (parse_redirection ("echo" :: ["hi"])))
                     (env (initialize_shell ∅)) (trace (initialize_shell ∅))))).
Proof.
  assert (H : is_builtin "echo" = false) by reflexivity.
  exact (conj H (X21_external_command sample_os 0 "echo" ["hi"] (initialize_shell ∅) H)).
Defined.

(** ** Start-up *)

(** X23: the state [initialize_shell] sets up.  [PATH] is [/bin] whatever
    was inherited, [getenv] answers as on the inherited environment for
    every other name without ['='], there is no shell variable, and the
    history is a well-formed empty ring of capacity 5. *)
Theorem X23_initial_state :
  forall e : gmap string string,
    getenv "PATH" (env (initialize_shell e)) = Some "/bin" /\
    (forall other,
        other <> "PATH" ->
        has_char "=" other = false ->
        getenv other (env (initialize_shell e)) = getenv other e) /\
    var_head (initialize_shell e) = [] /\
    wf_history (history (initialize_shell e)) /\
    capacity (history (initialize_shell e)) = 5 /\
    recent (history (initialize_shell e)) = [] /\
    show_history (history (initialize_shell e)) = [].
Proof.
  intros e.
  split; [rewrite getenv_plain by (discriminate || reflexivity); simpl;
          apply lookup_insert_eq|].
  split.
  { intros other Ho Hoe. destruct (String.eqb_spec other EmptyString) as [->|Hoz];
      [reflexivity|].
    rewrite !getenv_plain by assumption. simpl. apply lookup_insert_ne. congruence. }
  split; [reflexivity|]. split; [exact initial_history_wf|]. repeat split.
Qed.

(** ** Numbers *)

Lemma read_digits_stop (s : string) (acc : Z) :
  match s with
  | EmptyString => True
  | String c _ => is_digit c = false
  end ->
  read_digits s acc = acc.
Proof. destruct s as [|c s]; [reflexivity|]. simpl. intros ->. reflexivity. Qed.

Lemma read_digits_acc (d : Decimal.uint) (tail : string) (acc : positive) :
  read_digits (NilEmpty.string_of_uint d ++ tail) (Z.pos acc) =
  read_digits tail (Z.pos (Pos.of_uint_acc d acc)).
Proof.
  revert acc. induction d as [|d IH|d IH|d IH|d IH|d IH|d IH|d IH|d IH|d IH|d IH];
    intros acc; [reflexivity|..];
    cbn [NilEmpty.string_of_uint Pos.of_uint_acc];
    match goal with
    | |- read_digits (String ?c ?s ++ tail) _ = _ =>
        change (String c s ++ tail) with (String c (s ++ tail))
    end;
    cbn [read_digits]; change (is_digit _) with true; cbv iota;
    rewrite <- IH; f_equal; vm_compute nat_of_ascii; lia.
Qed.

Lemma read_digits_uint (d : Decimal.uint) (tail : string) :
  read_digits (NilEmpty.string_of_uint d ++ tail) 0 =
  read_digits tail (Z.of_N (Pos.of_uint d)).
Proof.
  induction d as [|d IH|d IH|d IH|d IH|d IH|d IH|d IH|d IH|d IH|d IH];
    [reflexivity|..];
    cbn [NilEmpty.string_of_uint Pos.of_uint];
    match goal with
    | |- read_digits (String ?c ?s ++ tail) _ = _ =>
        change (String c s ++ tail) with (String c (s ++ tail))
    end;
    cbn [read_digits Z.of_N]; change (is_digit _) with true; cbv iota;
    [exact IH | rewrite <- read_digits_acc; f_equal..].
Qed.

Lemma atoi_of_digits (d : Decimal.uint) (tail : string) :
  d <> Decimal.Nil ->
  atoi (NilEmpty.string_of_uint d ++ tail) =
  int_of_long (clamp_long (read_digits (NilEmpty.string_of_uint d ++ tail) 0)).
Proof. intros H. destruct d; [contradiction | reflexivity..]. Qed.

Lemma atoi_of_minus_digits (d : Decimal.uint) (tail : string) :
  atoi (String "-" (NilEmpty.string_of_uint d ++ tail)) =
  int_of_long (clamp_long (- read_digits (NilEmpty.string_of_uint d ++ tail) 0)).
Proof. reflexivity. Qed.

(** X24: [atoi] reads back what [printf] writes with [%d].  For every
    value of type [int], the decimal text of the value, followed by
    nothing or by anything that does not begin with a digit, is read back
    as that value; so the numbers [show_history] prints are the numbers
    [history] takes. *)
Theorem X24_atoi_reads_printed_number (n : Z) (tail : string) :
  -2147483648 <= n < 2147483648 ->
  match tail with
  | EmptyString => True
  | String c _ => is_digit c = false
  end ->
  atoi (string_of_int n ++ tail) = n.
Proof.
  intros Hn Htail. unfold string_of_int.
  assert (Hid : forall z, -2147483648 <= z < 2147483648 -> int_of_long (clamp_long z) = z).
  { intros z Hz. unfold int_of_long, clamp_long.
    rewrite Z.max_r, Z.min_r by lia.
    rewrite Z.mod_small by lia. lia. }
  destruct n as [|p|p].
  - change (NilZero.string_of_int (Z.to_int 0) ++ tail) with (String "0" tail).
    change (String "0" tail) with (NilEmpty.string_of_uint (Decimal.D0 Decimal.Nil) ++ tail).
    rewrite atoi_of_digits by discriminate.
    rewrite read_digits_uint, read_digits_stop by exact Htail. reflexivity.
  - assert (Hs : NilZero.string_of_int (Z.to_int (Z.pos p)) =
                 NilEmpty.string_of_uint (Pos.to_uint p)).
    { simpl. pose proof (DecimalPos.Unsigned.to_uint_nonnil p) as Hnil.
      destruct (Pos.to_uint p); [contradiction | reflexivity..]. }
    rewrite Hs, atoi_of_digits by apply DecimalPos.Unsigned.to_uint_nonnil.
    rewrite read_digits_uint, read_digits_stop by exact Htail.
    rewrite DecimalPos.Unsigned.of_to. apply Hid. exact Hn.
  - assert (Hs : NilZero.string_of_int (Z.to_int (Z.neg p)) =
                 String "-" (NilEmpty.string_of_uint (Pos.to_uint p))).
    { simpl. pose proof (DecimalPos.Unsigned.to_uint_nonnil p) as Hnil.
      destruct (Pos.to_uint p); [contradiction | reflexivity..]. }
    rewrite Hs.
    change (String "-" (NilEmpty.string_of_uint (Pos.to_uint p)) ++ tail)
      with (String "-" (NilEmpty.string_of_uint (Pos.to_uint p) ++ tail)).
    rewrite atoi_of_minus_digits.
    rewrite read_digits_uint, read_digits_stop by exact Htail.
    rewrite DecimalPos.Unsigned.of_to. apply Hid. exact Hn.
Qed.

Lemma X24_witness :
  -2147483648 <= 42 < 2147483648 /\
  match ") ls" with
  | EmptyString => True
  | String c _ => is_digit c = false
  end /\
  atoi (string_of_int 42 ++ ") ls") = 42.
Proof.
  assert (H1 : -2147483648 <= 42 < 2147483648) by lia.
  assert (H2 : match ") ls" with
               | EmptyString => True
               | String c _ => is_digit c = false
               end) by reflexivity.
  exact (conj H1 (conj H2 (X24_atoi_reads_printed_number 42 ") ls" H1 H2))).
Defined.

(** ** Recording and replaying together *)

Lemma add_history_newest command h :
  wf_history h ->
  is_builtin command = false ->
  mjoin (head (recent (add_history command h))) = Some command.
Proof.
  intros Hwf Hb. rewrite add_history_recent by exact Hwf. unfold record_entry.
  change (existsb (fun b => strcmp_eq command b) builtin_str) with (is_builtin command).
  rewrite Hb. destruct (slot_is (mjoin (head (recent h))) command) eqn:E.
  - destruct (mjoin (head (recent h))) as [c|]; [|discriminate].
    simpl in E. apply String.eqb_eq in E. congruence.
  - destruct Hwf as (Hcap & _).
    destruct (Z.to_nat (capacity h)) as [|n] eqn:En; [lia | reflexivity].
Qed.

(** X25: recording is idempotent.  Handing the same command to
    [add_history] twice in a row leaves the ring as after the first
    time. *)
Theorem X25_add_history_idempotent (command : string) (h : History) :
  wf_history h ->
  add_history command (add_history command h) = add_history command h.
Proof.
  intros Hwf. destruct (is_builtin command) eqn:Hb.
  - rewrite (add_history_same command h Hwf) by (left; exact Hb).
    apply add_history_same; [exact Hwf | left; exact Hb].
  - apply add_history_same; [apply add_history_wf, Hwf|].
    right. apply add_history_newest; assumption.
Qed.

Lemma X25_witness :
  wf_history three_lines /\
  add_history "d" (add_history "d" three_lines) = add_history "d" three_lines.
Proof.
  exact (conj three_lines_wf (X25_add_history_idempotent "d" three_lines three_lines_wf)).
Defined.

(** X26: the line [history 1] never comes back.  [main] records the line
    before executing it, so that entry 1 is the line itself and its replay
    starts the same replay again: the recursion through
    [execute_history_command] is cut off at any depth. *)
Theorem X26_history_1_never_returns (os : OS) (fuel : nat) (st : Shell) :
  wf_history (history st) ->
  main_step os fuel ("history 1" ++ nl) st = OutOfFuel.
Proof.
  intros Hwf.
  assert (Hstep : main_step os fuel ("history 1" ++ nl) st =
                  execute_command os fuel ["history"; "1"]
                    (set_history (add_history "history 1" (history st)) st)).
  { unfold main_step. cbv zeta.
    change (skip_blanks ("history 1" ++ nl)) with (String "h" ("istory 1" ++ nl)).
    cbv iota.
    change (Ascii.eqb "h" "#" || Ascii.eqb "h" (ascii_of_nat 10)) with false.
    cbv iota.
    change (strip_newline (String "h" ("istory 1" ++ nl))) with "history 1".
    rewrite parse_line_set_history.
    assert (Hp : parse_line (String "h" ("istory 1" ++ nl)) st = ["history"; "1"]).
    { unfold parse_line. rewrite parse_line_loop_tokens. reflexivity. }
    rewrite Hp. reflexivity. }
  rewrite Hstep.
  pose proof (add_history_newest "history 1" (history st) Hwf eq_refl) as Hnew.
  rewrite head_recent in Hnew.
  apply replay_of_itself_never_returns; simpl history.
  - destruct (0 <? count (add_history "history 1" (history st))) eqn:E;
      [lia | discriminate].
  - destruct (0 <? count (add_history "history 1" (history st))); [exact Hnew | discriminate].
Qed.

Lemma X26_witness :
  wf_history (history (initialize_shell ∅)) /\
  main_step sample_os 1000 ("history 1" ++ nl) (initialize_shell ∅) = OutOfFuel.
Proof.
  exact (conj initial_history_wf
           (X26_history_1_never_returns sample_os 1000 (initialize_shell ∅)
              initial_history_wf)).
Defined.
